(** * alternatives-experts-scraper: the fetch / parse / retry pipeline

    A shallow embedding of [speakers_alternatives_spiritual.py]:
    the card parser [parse_main_cards], the detail parser
    [parse_about_from_html], the retrying fetcher [fetch_detail_html], the
    enrichment loop of [main] and its pandas post-processing.

    The third-party libraries are modelled by what the program observes of
    them:
    - a Python [str] is a list of Unicode code points;
    - a BeautifulSoup document is a tree of tags and strings; the HTML
      tokenizer itself ([html.parser]) and [urllib.parse.urljoin] are
      parameters of the development, each of them free to raise;
    - the Playwright browser context is an oracle that answers each call
      from the history of all earlier calls, so that any deterministic or
      non-deterministic browser behaviour is an instance;
    - tenacity's [retry] and pandas' [replace] / [drop_duplicates] /
      [reset_index] are written out after their documented behaviour. *)

From Stdlib Require Import List Bool Arith NArith Lia String Ascii Sorted.
From Equations Require Import Equations.
Import ListNotations.

Set Implicit Arguments.

(* ================================================================= *)
(** ** Python strings *)

(** A [str] is a sequence of code points. *)
Definition pystr : Type := list N.

Definition py (s : string) : pystr := map N_of_ascii (list_ascii_of_string s).
Arguments py s%_string.

Fixpoint pystr_eqb (a b : pystr) : bool :=
  match a, b with
  | [], [] => true
  | x :: a', y :: b' => N.eqb x y && pystr_eqb a' b'
  | _, _ => false
  end.

Definition pystr_eq_dec : forall a b : pystr, {a = b} + {a <> b} :=
  list_eq_dec N.eq_dec.

(** Truth value of a string: [if s:] holds for the non-empty ones. *)
Definition truthy (s : pystr) : bool :=
  match s with [] => false | _ :: _ => true end.

(** [str.isspace] on one code point: the characters [str.strip()] removes. *)
Definition isspace (c : N) : bool :=
  (((9 <=? c) && (c <=? 13)) || ((28 <=? c) && (c <=? 32))
   || (c =? 133) || (c =? 160) || (c =? 5760)
   || ((8192 <=? c) && (c <=? 8202))
   || (c =? 8232) || (c =? 8233) || (c =? 8239) || (c =? 8287)
   || (c =? 12288))%N.

Fixpoint lstrip (s : pystr) : pystr :=
  match s with
  | [] => []
  | c :: s' => if isspace c then lstrip s' else s
  end.

Definition rstrip (s : pystr) : pystr := rev (lstrip (rev s)).

(** [s.strip()]: the slice between the first and the last character that
    is not white space. *)
Definition strip (s : pystr) : pystr := rstrip (lstrip s).

(** [sep.join(parts)] *)
Fixpoint join (sep : pystr) (parts : list pystr) : pystr :=
  match parts with
  | [] => []
  | [x] => x
  | x :: rest => x ++ sep ++ join sep rest
  end.

(** A string has no leading and no trailing white space. *)
Definition trimmedb (s : pystr) : bool :=
  match s with
  | [] => true
  | c :: _ => negb (isspace c) && negb (isspace (last s c))
  end.

(* ================================================================= *)
(** ** Exceptions and results *)

(** The exceptions the program names in its handlers.  All of them are
    subclasses of [Exception]; signals outside that hierarchy
    (KeyboardInterrupt and the like) are not failures of a fetch and are
    not modelled. *)
Inductive exn : Type :=
| pwTimeout
| RetryError
| Exception (msg : pystr).

Inductive result (A : Type) : Type :=
| Ok (a : A)
| Raise (e : exn).
Arguments Ok {A} a.
Arguments Raise {A} e.

Definition rbind {A B} (r : result A) (k : A -> result B) : result B :=
  match r with
  | Ok a => k a
  | Raise e => Raise e
  end.

(* ================================================================= *)
(** ** The document tree *)

(** What BeautifulSoup builds, restricted to what the program reads: the
    tag name, the [class] list and the [href] attribute of a tag.
    [Comment] stands for every string [get_text] skips (comments,
    declarations, script and style bodies). *)
#[warnings="-register-all"]
Inductive node : Type :=
| NavigableString (s : pystr)
| Comment (s : pystr)
| Tag (name : pystr) (classes : list pystr) (href : option pystr)
      (contents : list node).

(** A tag met during a traversal, with the names of its ancestors, the
    nearest first: selectors with a descendant combinator look at them. *)
Definition element : Type := (list pystr * node)%type.

(** Document order: a tag, then the tags below it, left to right. *)
Fixpoint walk (anc : list pystr) (n : node) : list element :=
  match n with
  | Tag name _ _ kids => (anc, n) :: flat_map (walk (name :: anc)) kids
  | _ => []
  end.

(** [tag.descendants], tags only. *)
Definition descendants (e : element) : list element :=
  match snd e with
  | Tag name _ _ kids => flat_map (walk (name :: fst e)) kids
  | _ => []
  end.

Definition is_tag (name : pystr) (e : element) : bool :=
  match snd e with
  | Tag n _ _ _ => pystr_eqb n name
  | _ => false
  end.

Definition has_class (c : pystr) (e : element) : bool :=
  match snd e with
  | Tag _ cs _ _ => existsb (pystr_eqb c) cs
  | _ => false
  end.

(** [a.get("href")] *)
Definition get_href (e : element) : option pystr :=
  match snd e with
  | Tag _ _ h _ => h
  | _ => None
  end.

(** The strings below a node that [get_text] looks at, in document order. *)
Fixpoint all_strings (n : node) : list pystr :=
  match n with
  | NavigableString s => [s]
  | Comment _ => []
  | Tag _ _ _ kids => flat_map all_strings kids
  end.

(** [tag.get_text(sep, strip=True)]: every string is stripped, the empty
    ones are skipped, the rest is joined with [sep]. *)
Definition get_text (sep : pystr) (e : element) : pystr :=
  join sep (filter truthy (map strip (all_strings (snd e)))).

(** [soup.select("div.views-row")] *)
Definition select_div_views_row (soup : element) : list element :=
  filter (fun e => is_tag (py "div") e && has_class (py "views-row") e)
         (descendants soup).

(** [soup.select("div.field-content")] *)
Definition select_div_field_content (soup : element) : list element :=
  filter (fun e => is_tag (py "div") e && has_class (py "field-content") e)
         (descendants soup).

(** [node.select_one("h3 a")]: the first [a] below [node] that has an [h3]
    among its ancestors. *)
Definition select_one_h3_a (node : element) : option element :=
  find (fun e => is_tag (py "a") e && existsb (pystr_eqb (py "h3")) (fst e))
       (descendants node).

(** [node.find("ul")] *)
Definition find_ul (node : element) : option element :=
  find (is_tag (py "ul")) (descendants node).

(** [ul.find_all("li")] *)
Definition find_all_li (ul : element) : list element :=
  filter (is_tag (py "li")) (descendants ul).

(** [block.select("p")] *)
Definition select_p (block : element) : list element :=
  filter (is_tag (py "p")) (descendants block).

(* ================================================================= *)
(** ** Configuration *)

Definition BASE : pystr := py "https://www.alternatives.org.uk".
Definition PAGE_TIMEOUT_MS : N := 5000.
Definition RETRY_ATTEMPTS : nat := 3.

(* ================================================================= *)
(** ** Records *)

(** One dict of [parse_main_cards]' result. *)
Record card : Type := {
  Name : pystr;
  First_Tag : pystr;
  Last_Tag : pystr;
  Detail_URL : option pystr
}.

(** One dict of [speakers]. *)
Record speaker : Type := {
  sp_Name : pystr;
  sp_First_Tag : pystr;
  sp_Last_Tag : pystr;
  About_the_Speaker : pystr
}.

(* ================================================================= *)
(** ** The browser and the effects of a run *)

Definition page : Type := nat.

(** One call on the browser context, on a page or on the event loop, with
    its outcome. *)
Inductive event : Type :=
| EvNewPage (r : result page)
| EvGoto (p : page) (url : pystr) (timeout : N) (r : result unit)
| EvWaitForSelector (p : page) (selector : pystr) (timeout : N)
                    (r : result unit)
| EvContent (p : page) (r : result pystr)
| EvClose (p : page) (r : result unit)
| EvSleep (ms : N).

Definition trace : Type := list event.

(** The browser context: the outcome of each call, given everything that
    happened before it. *)
Record Browser : Type := {
  on_new_page : trace -> result page;
  on_goto : trace -> page -> pystr -> N -> result unit;
  on_wait_for_selector : trace -> page -> pystr -> N -> result unit;
  on_content : trace -> page -> result pystr;
  on_close : trace -> page -> result unit
}.

(** A coroutine: it extends the trace and returns or raises. *)
Definition M (A : Type) : Type := trace -> trace * result A.

Definition ret {A} (a : A) : M A := fun t => (t, Ok a).

Definition lift {A} (r : result A) : M A := fun t => (t, r).

Definition bind {A B} (m : M A) (k : A -> M B) : M B :=
  fun t =>
    match m t with
    | (t1, Ok a) => k a t1
    | (t1, Raise e) => (t1, Raise e)
    end.

(** [try: m  except Exception: h] *)
Definition try_except {A} (m : M A) (h : exn -> M A) : M A :=
  fun t =>
    match m t with
    | (t1, Ok a) => (t1, Ok a)
    | (t1, Raise e) => h e t1
    end.

(** [try: m  finally: fin].  The finalizer runs on every outcome of [m];
    an exception it raises replaces the outcome of [m]. *)
Definition try_finally {A} (m : M A) (fin : M unit) : M A :=
  fun t =>
    match m t with
    | (t1, r) =>
        match fin t1 with
        | (t2, Ok _) => (t2, r)
        | (t2, Raise e) => (t2, Raise e)
        end
    end.

Declare Scope coroutine_scope.
Delimit Scope coroutine_scope with co.
Notation "x <- m ;; k" := (bind m (fun x => k))
  (at level 100, m at next level, right associativity) : coroutine_scope.
Notation "m ;;; k" := (bind m (fun _ => k))
  (at level 100, right associativity) : coroutine_scope.

(** The number of attempts a trace holds: each attempt of
    [fetch_detail_html] starts with one [context.new_page()]. *)
Definition is_new_page (ev : event) : bool :=
  match ev with EvNewPage _ => true | _ => false end.

Definition is_opened (ev : event) : bool :=
  match ev with EvNewPage (Ok _) => true | _ => false end.

Definition is_close (ev : event) : bool :=
  match ev with EvClose _ _ => true | _ => false end.

Definition attempts (d : trace) : nat := List.length (filter is_new_page d).
Definition opened (d : trace) : nat := List.length (filter is_opened d).
Definition closed (d : trace) : nat := List.length (filter is_close d).

(** What one attempt adds to the trace: one [new_page], and a [close] for
    the page when one was opened. *)
Definition one_attempt {A} (fn : M A) : Prop :=
  forall t, exists d,
    fst (fn t) = t ++ d /\ attempts d = 1 /\ opened d = closed d.

(* ================================================================= *)
(** ** The data frame of the post-processing *)

(** A cell holds a string or is missing ([None] / NaN). *)
Definition cell : Type := option pystr.

(** A row over the columns
    [["Name", "First Tag", "Last Tag", "About the Speaker"]]. *)
Record row : Type := {
  c_Name : cell;
  c_First_Tag : cell;
  c_Last_Tag : cell;
  c_About_the_Speaker : cell
}.

(** The rows with their index labels. *)
Definition DataFrame : Type := list (nat * row).

Definition cells (r : row) : list cell :=
  [c_Name r; c_First_Tag r; c_Last_Tag r; c_About_the_Speaker r].

Definition cell_eqb (a b : cell) : bool :=
  match a, b with
  | None, None => true
  | Some x, Some y => pystr_eqb x y
  | _, _ => false
  end.

(** Two rows are duplicates when all four columns agree. *)
Definition row_eqb (a b : row) : bool :=
  cell_eqb (c_Name a) (c_Name b)
  && cell_eqb (c_First_Tag a) (c_First_Tag b)
  && cell_eqb (c_Last_Tag a) (c_Last_Tag b)
  && cell_eqb (c_About_the_Speaker a) (c_About_the_Speaker b).

Definition NA : pystr := py "N/A".

Definition row_of_speaker (s : speaker) : row :=
  {| c_Name := Some (sp_Name s);
     c_First_Tag := Some (sp_First_Tag s);
     c_Last_Tag := Some (sp_Last_Tag s);
     c_About_the_Speaker := Some (About_the_Speaker s) |}.

(** [pd.DataFrame(speakers, columns=[...])]: a RangeIndex from 0. *)
Definition new_DataFrame (speakers : list speaker) : DataFrame :=
  combine (seq 0 (List.length speakers)) (map row_of_speaker speakers).

(** [replace(["", None], "N/A")] on one cell. *)
Definition replace_cell (c : cell) : cell :=
  match c with
  | None => Some NA
  | Some [] => Some NA
  | Some s => Some s
  end.

Definition replace_row (r : row) : row :=
  {| c_Name := replace_cell (c_Name r);
     c_First_Tag := replace_cell (c_First_Tag r);
     c_Last_Tag := replace_cell (c_Last_Tag r);
     c_About_the_Speaker := replace_cell (c_About_the_Speaker r) |}.

(** [df.replace(["", None], "N/A", inplace=True)] *)
Definition replace (df : DataFrame) : DataFrame :=
  map (fun ir => (fst ir, replace_row (snd ir))) df.

(** [df.drop_duplicates()] with the default [keep="first"]: a row is
    dropped when an equal row was met before it. [seen] holds the rows met
    so far. *)
Fixpoint drop_duplicates_from (seen : list row) (df : DataFrame)
  : DataFrame :=
  match df with
  | [] => []
  | (i, r) :: rest =>
      if existsb (row_eqb r) seen
      then drop_duplicates_from seen rest
      else (i, r) :: drop_duplicates_from (r :: seen) rest
  end.

Definition drop_duplicates (df : DataFrame) : DataFrame :=
  drop_duplicates_from [] df.

(** [df.reset_index(drop=True)] *)
Definition reset_index (df : DataFrame) : DataFrame :=
  combine (seq 0 (List.length df)) (map snd df).

(** The "Clean and prepare data" step of [main]. *)
Definition clean (speakers : list speaker) : DataFrame :=
  reset_index (drop_duplicates (replace (new_DataFrame speakers))).

(** What [replace] leaves of a string field. *)
Definition or_NA (s : pystr) : pystr := if truthy s then s else NA.

(** The row with label [i] is the first of its value in [df]: no row with
    a smaller label equals it. *)
Definition first_occurrence (df : DataFrame) (ir : nat * row) : bool :=
  negb (existsb (fun jr => (fst jr <? fst ir) && row_eqb (snd jr) (snd ir))
                df).

(** The time a trace spends in [asyncio.sleep], in milliseconds. *)
Definition slept (d : trace) : N :=
  fold_right (fun ev acc => match ev with EvSleep ms => ms + acc | _ => acc end)%N
             0%N d.

(** [if detail_url:] on a card. *)
Definition has_detail_url (rec : card) : bool :=
  match Detail_URL rec with
  | Some url => truthy url
  | None => false
  end.

(* ================================================================= *)
(** ** The directory page *)

Definition START_URL : pystr := py "https://www.alternatives.org.uk/experts".

(** [try: m  except pwTimeout: h]: other exceptions pass through. *)
Definition try_except_pwTimeout {A} (m : M A) (h : M A) : M A :=
  fun t =>
    match m t with
    | (t1, Ok a) => (t1, Ok a)
    | (t1, Raise e) =>
        match e with
        | pwTimeout => h t1
        | _ => (t1, Raise e)
        end
    end.

Definition is_goto (ev : event) : bool :=
  match ev with EvGoto _ _ _ _ => true | _ => false end.

(** The number of navigations a trace holds. *)
Definition gotos (d : trace) : nat := List.length (filter is_goto d).

(* ================================================================= *)
(** ** The worksheet and its styling *)

(** openpyxl's style objects, by the attributes the program sets. *)
Record PatternFill : Type := {
  start_color : option pystr;
  end_color : option pystr;
  fill_type : option pystr
}.

Record Font : Type := {
  color : option pystr;
  bold : bool;
  italic : bool
}.

Record Alignment : Type := {
  horizontal : option pystr;
  vertical : option pystr
}.

Record Side : Type := {
  border_style : option pystr;
  side_color : option pystr
}.

Record Border : Type := {
  border_left : Side;
  border_right : Side;
  border_top : Side;
  border_bottom : Side
}.

(** A cell of a sheet.  The frames this program writes hold strings only,
    so a value is a string or [None]. *)
Record Cell : Type := {
  cell_value : option pystr;
  fill : PatternFill;
  font : Font;
  alignment : Alignment;
  border : Border
}.

(** A sheet: [ws.cell(row, column)] for every position (a position never
    written holds an empty cell), the last row and the last column that
    hold a cell (0 on a sheet without cells), the column widths by column
    number, the frozen panes and the range of the filter, by its bounds
    (first row, first column, last row, last column). *)
Record Worksheet : Type := {
  ws_cell : nat -> nat -> Cell;
  last_used_row : nat;
  last_used_column : nat;
  column_width : nat -> option nat;
  freeze_panes : option pystr;
  auto_filter_ref : option (nat * nat * nat * nat)
}.

(** [ws.max_row] and [ws.max_column]: 1 on a sheet without cells. *)
Definition max_row (ws : Worksheet) : nat := Nat.max 1 (last_used_row ws).
Definition max_column (ws : Worksheet) : nat :=
  Nat.max 1 (last_used_column ws).

Definition header_fill : PatternFill :=
  {| start_color := Some (py "1F4E78"); end_color := Some (py "1F4E78");
     fill_type := Some (py "solid") |}.
Definition header_font : Font :=
  {| color := Some (py "FFFFFF"); bold := true; italic := false |}.
Definition grey_font : Font :=
  {| color := Some (py "808080"); bold := false; italic := true |}.
Definition alt_fill : PatternFill :=
  {| start_color := Some (py "F5F5F5"); end_color := Some (py "F5F5F5");
     fill_type := Some (py "solid") |}.
Definition border_side : Side :=
  {| border_style := Some (py "medium"); side_color := Some (py "000000") |}.
Definition medium_border : Border :=
  {| border_left := border_side; border_right := border_side;
     border_top := border_side; border_bottom := border_side |}.
Definition center : Alignment :=
  {| horizontal := Some (py "center"); vertical := Some (py "center") |}.

Definition set_value (v : option pystr) (c : Cell) : Cell :=
  {| cell_value := v; fill := fill c; font := font c;
     alignment := alignment c; border := border c |}.
Definition set_fill (f : PatternFill) (c : Cell) : Cell :=
  {| cell_value := cell_value c; fill := f; font := font c;
     alignment := alignment c; border := border c |}.
Definition set_font (f : Font) (c : Cell) : Cell :=
  {| cell_value := cell_value c; fill := fill c; font := f;
     alignment := alignment c; border := border c |}.
Definition set_alignment (a : Alignment) (c : Cell) : Cell :=
  {| cell_value := cell_value c; fill := fill c; font := font c;
     alignment := a; border := border c |}.
Definition set_border (b : Border) (c : Cell) : Cell :=
  {| cell_value := cell_value c; fill := fill c; font := font c;
     alignment := alignment c; border := b |}.

(** An assignment to attributes of the cell at [(r, c)]. *)
Definition update_cell (ws : Worksheet) (r c : nat) (f : Cell -> Cell)
  : Worksheet :=
  {| ws_cell := fun r' c' =>
                  if (r' =? r) && (c' =? c) then f (ws_cell ws r' c')
                  else ws_cell ws r' c';
     last_used_row := last_used_row ws;
     last_used_column := last_used_column ws;
     column_width := column_width ws;
     freeze_panes := freeze_panes ws;
     auto_filter_ref := auto_filter_ref ws |}.

(** The same on every cell of row [r] in the columns [cols]. *)
Definition update_row (ws : Worksheet) (r : nat) (cols : list nat)
           (f : Cell -> Cell) : Worksheet :=
  fold_left (fun ws c => update_cell ws r c f) cols ws.

(** [str(cell.value)] *)
Definition str_of_value (v : option pystr) : pystr :=
  match v with
  | Some s => s
  | None => py "None"
  end.

(** [str(cell.value).strip() == "N/A"] *)
Definition is_NA (c : Cell) : bool :=
  pystr_eqb (strip (str_of_value (cell_value c))) NA.

(** [len(str(cell.value)) if cell.value else 0] *)
Definition shown_length (c : Cell) : nat :=
  match cell_value c with
  | Some (x :: s) => List.length (x :: s)
  | _ => 0
  end.

(** The header loop: [for cell in ws[1]]. *)
Definition style_header (ws : Worksheet) : Worksheet :=
  update_row ws 1 (seq 1 (max_column ws))
             (fun cell => set_alignment center
                            (set_font header_font (set_fill header_fill cell))).

(** One data row: shade it when its number is even, then grey the "N/A"
    cells and draw the borders. *)
Definition style_data_row (cols : list nat) (ws : Worksheet) (idx : nat)
  : Worksheet :=
  let ws1 := if idx mod 2 =? 0 then update_row ws idx cols (set_fill alt_fill)
             else ws in
  update_row ws1 idx cols
             (fun cell => set_border medium_border
                            (if is_NA cell then set_font grey_font cell
                             else cell)).

(** The loop over [ws.iter_rows(min_row=2)], numbered from 2. *)
Definition style_data_rows (ws : Worksheet) : Worksheet :=
  fold_left (style_data_row (seq 1 (max_column ws)))
            (seq 2 (max_row ws - 1)) ws.

Definition set_column_width (ws : Worksheet) (c w : nat) : Worksheet :=
  {| ws_cell := ws_cell ws;
     last_used_row := last_used_row ws;
     last_used_column := last_used_column ws;
     column_width := fun c' => if c' =? c then Some w else column_width ws c';
     freeze_panes := freeze_panes ws;
     auto_filter_ref := auto_filter_ref ws |}.

(** The width a column is given: the longest shown value of its cells
    plus 2, at most 60.  [ws.columns] has at least one cell per column,
    so [max] has something to look at. *)
Definition fitted_width (ws : Worksheet) (c : nat) : nat :=
  Nat.min (list_max (map (fun r => shown_length (ws_cell ws r c))
                         (seq 1 (max_row ws))) + 2) 60.

(** The loop over [ws.columns]. *)
Definition autofit_columns (ws : Worksheet) : Worksheet :=
  fold_left (fun w c => set_column_width w c (fitted_width w c))
            (seq 1 (max_column ws)) ws.

(** [ws.freeze_panes = "A2"; ws.auto_filter.ref = ws.dimensions].  All
    cells from A1 to the last row and column exist once the loops above
    have gone over them, so the dimensions start at A1. *)
Definition freeze_and_filter (ws : Worksheet) : Worksheet :=
  {| ws_cell := ws_cell ws;
     last_used_row := last_used_row ws;
     last_used_column := last_used_column ws;
     column_width := column_width ws;
     freeze_panes := Some (py "A2");
     auto_filter_ref := Some (1, 1, max_row ws, max_column ws) |}.

(** [ws.cell(row=r, column=c, value=v)] *)
Definition write_cell (ws : Worksheet) (r c : nat) (v : pystr) : Worksheet :=
  {| ws_cell := fun r' c' =>
                  if (r' =? r) && (c' =? c)
                  then set_value (Some v) (ws_cell ws r' c')
                  else ws_cell ws r' c';
     last_used_row := Nat.max (last_used_row ws) r;
     last_used_column := Nat.max (last_used_column ws) c;
     column_width := column_width ws;
     freeze_panes := freeze_panes ws;
     auto_filter_ref := auto_filter_ref ws |}.

Definition SOURCE_NOTE : pystr :=
  128202%N :: py " Sourced from (https://www.alternatives.org.uk/experts)".

(** The two notes below the table. *)
Definition write_notes (timestamp : pystr) (ws : Worksheet) : Worksheet :=
  let last_row := max_row ws + 2 in
  let ws1 := write_cell ws last_row 1 SOURCE_NOTE in
  let ws2 := write_cell ws1 (last_row + 1) 1
                        (py "Generated on: " ++ timestamp) in
  let ws3 := update_cell ws2 last_row 1 (set_font grey_font) in
  update_cell ws3 (last_row + 1) 1 (set_font grey_font).

(** [style_excel] on the active sheet of the workbook; [timestamp] is
    [datetime.now().strftime("%Y-%m-%d %H:%M:%S")]. *)
Definition style_excel (timestamp : pystr) (ws : Worksheet) : Worksheet :=
  write_notes timestamp
    (freeze_and_filter (autofit_columns (style_data_rows (style_header ws)))).

(** What the loops make of a cell of the header row and of a data row. *)
Definition header_style (cell : Cell) : Cell :=
  set_alignment center (set_font header_font (set_fill header_fill cell)).

Definition data_style (idx : nat) (cell : Cell) : Cell :=
  let shaded := if idx mod 2 =? 0 then set_fill alt_fill cell else cell in
  set_border medium_border
             (if is_NA shaded then set_font grey_font shaded else shaded).

(** Two sheets that differ in their cells only. *)
Definition same_frame (ws ws' : Worksheet) : Prop :=
  last_used_row ws' = last_used_row ws
  /\ last_used_column ws' = last_used_column ws
  /\ column_width ws' = column_width ws
  /\ freeze_panes ws' = freeze_panes ws
  /\ auto_filter_ref ws' = auto_filter_ref ws.

(* ================================================================= *)
(** ** Two readings of the specification *)

(** [s.split()]: the words of [s], the runs of white space dropped. *)
Fixpoint split_from (word s : pystr) : list pystr :=
  match s with
  | [] => match word with [] => [] | _ :: _ => [word] end
  | c :: s' =>
      if isspace c
      then match word with
           | [] => split_from [] s'
           | _ :: _ => word :: split_from [] s'
           end
      else split_from (word ++ [c]) s'
  end.

Definition split (s : pystr) : list pystr := split_from [] s.

(** Section 4.2 of the specification measures "the block's own visible
    text (collapsed whitespace)": the strings below the block with every
    run of white space, inside a string too, turned into one space.  The
    program does not compute this text; [get_text] above is what it
    measures. *)
Definition spec_collapsed_text (block : element) : pystr :=
  join (py " ") (split (join (py " ") (all_strings (snd block)))).

(** Section 4.1 of the specification speaks of the items of a row's list:
    the [li] children of the [ul].  The program looks at every [li] below
    the [ul] instead, see [find_all_li]. *)
Definition spec_list_items (ul : element) : list node :=
  match snd ul with
  | Tag _ _ _ kids =>
      filter (fun k => match k with
                       | Tag name _ _ _ => pystr_eqb name (py "li")
                       | _ => false
                       end) kids
  | _ => []
  end.

(* ================================================================= *)
(** ** Fixtures *)

Module Fixtures.

Definition text (s : string) : node := NavigableString (py s).

Definition li (s : string) : node := Tag (py "li") [] None [text s].

Definition heading_link (href name : string) : node :=
  Tag (py "h3") [] None [Tag (py "a") [] (Some (py href)) [text name]].

Definition views_row (kids : list node) : node :=
  Tag (py "div") [py "views-row"] None kids.

(** A directory page with four rows: two tags; no link and no list; an
    empty list; a list of one item. *)
Definition directory_page : list node :=
  [ Tag (py "div") [py "view-content"] None
      [ views_row [ heading_link "/experts/anna" " Anna Bell ";
                    Tag (py "ul") [] None [li "Healing"; li " Yoga "] ];
        views_row [ Tag (py "h3") [] None [text "Ben Okri"] ];
        views_row [ heading_link "/experts/cleo" "Cleo";
                    Tag (py "ul") [] None [] ];
        views_row [ heading_link "/experts/dan" "Dan";
                    Tag (py "ul") [] None [li "Reiki"] ] ] ].

Definition field_content (kids : list node) : node :=
  Tag (py "div") [py "field-content"] None kids.

Definition paragraph (s : string) : node := Tag (py "p") [] None [text s].

Definition caption : string := "Photo: A. Bell".
Definition long_text : string :=
  "Anna has taught meditation for twenty years.".

(** A block of two paragraphs, one of them short. *)
Definition block_with_paragraphs : node :=
  field_content [paragraph "Hi."; paragraph long_text].

(** A block without paragraphs whose text is short. *)
Definition block_caption : node := field_content [text caption].

(** A block without paragraphs whose text is long. *)
Definition block_long : node := field_content [text long_text].

(** A block whose only paragraph is blank, next to a long text of its
    own. *)
Definition block_blank_paragraph : node :=
  field_content [text long_text; paragraph "   "].

Definition detail_page : list node :=
  [ Tag (py "body") [] None
      [ block_caption; block_with_paragraphs; block_long ] ].

(** A tokenizer that answers every input with the same document. *)
Definition parser_of (doc : list node) : pystr -> result (list node) :=
  fun _ => Ok doc.

Definition soup_of (doc : list node) : element :=
  ([], Tag (py "[document]") [] None doc).

Definition at_body (n : node) : element := ([py "body"; py "[document]"], n).

(** A stand-in for [urljoin] on absolute paths. *)
Definition join_path (base url : pystr) : result pystr := Ok (base ++ url).

(** A stand-in for [urljoin] that, like urllib, refuses a reference whose
    host part opens a bracket: [urljoin(BASE, "http://[")] raises
    [ValueError("Invalid IPv6 URL")]. *)
Definition strict_join (base url : pystr) : result pystr :=
  if existsb (N.eqb 91) url then Raise (Exception (py "Invalid IPv6 URL"))
  else Ok (base ++ url).

(** A directory page whose second row links to ["http://["]. *)
Definition bad_href_page : list node :=
  [ views_row [ heading_link "/experts/anna" "Anna" ];
    views_row [ heading_link "http://[" "Ben" ];
    views_row [ heading_link "/experts/cleo" "Cleo" ] ].

(** A row whose list has one item, which holds a list of its own. *)
Definition nested_item_row : element :=
  ([py "[document]"],
   views_row [ heading_link "/experts/eve" "Eve";
               Tag (py "ul") [] None
                 [ Tag (py "li") [] None
                     [ text "One"; Tag (py "ul") [] None [li "Sub"] ] ] ]).

(** A block without paragraphs: two words, forty spaces apart. *)
Definition spaced_block : element :=
  at_body (field_content
             [text "About                                        me"]).

(** A browser whose navigation times out during the first two attempts
    and works from the third on. *)
Definition flaky_browser : Browser :=
  {| on_new_page := fun t => Ok (attempts t);
     on_goto := fun t _ _ _ =>
                  if attempts t <? 3 then Raise pwTimeout else Ok tt;
     on_wait_for_selector := fun _ _ _ _ => Ok tt;
     on_content := fun _ _ => Ok (py "<div class='field-content'/>");
     on_close := fun _ _ => Ok tt |}.

(** A browser on which the content marker never shows up, and whose pages
    fail to close. *)
Definition dead_browser : Browser :=
  {| on_new_page := fun t => Ok (attempts t);
     on_goto := fun _ _ _ _ => Ok tt;
     on_wait_for_selector := fun _ _ _ _ => Raise pwTimeout;
     on_content := fun _ _ => Ok [];
     on_close := fun _ _ => Raise (Exception (py "Target closed")) |}.

Definition url_anna : pystr := py "https://www.alternatives.org.uk/experts/anna".

Definition url_ben : pystr := py "https://www.alternatives.org.uk/experts/ben".

(** A browser on which navigating to [url_ben] always times out and
    everything else works. *)
Definition mixed_browser : Browser :=
  {| on_new_page := fun t => Ok (attempts t);
     on_goto := fun _ _ url _ =>
                  if pystr_eqb url url_ben then Raise pwTimeout else Ok tt;
     on_wait_for_selector := fun _ _ _ _ => Ok tt;
     on_content := fun _ _ => Ok (py "<html>");
     on_close := fun _ _ => Ok tt |}.

(** Three cards: without a link, with a link that times out, with a link
    that works. *)
Definition three_cards : list card :=
  [ {| Name := py "Cleo"; First_Tag := py "Yoga"; Last_Tag := py "Yoga";
       Detail_URL := None |};
    {| Name := py "Ben"; First_Tag := []; Last_Tag := [];
       Detail_URL := Some url_ben |};
    {| Name := py "Anna"; First_Tag := py "Healing"; Last_Tag := py "Yoga";
       Detail_URL := Some url_anna |} ].

Definition one_block_page : list node :=
  [ Tag (py "body") [] None [block_long] ].

(** A browser that cannot reach the site: every navigation fails with an
    error that is no timeout. *)
Definition offline_browser : Browser :=
  {| on_new_page := fun t => Ok (attempts t);
     on_goto := fun _ _ _ _ => Raise (Exception (py "net::ERR_NAME_NOT_RESOLVED"));
     on_wait_for_selector := fun _ _ _ _ => Ok tt;
     on_content := fun _ _ => Ok [];
     on_close := fun _ _ => Ok tt |}.

(** A browser on which the first navigation times out and everything
    else works. *)
Definition slow_start_browser : Browser :=
  {| on_new_page := fun t => Ok (attempts t);
     on_goto := fun t _ _ _ =>
                  if gotos t =? 0 then Raise pwTimeout else Ok tt;
     on_wait_for_selector := fun _ _ _ _ => Ok tt;
     on_content := fun _ _ => Ok (py "<html>");
     on_close := fun _ _ => Ok tt |}.

Definition plain_cell (v : option pystr) : Cell :=
  {| cell_value := v;
     fill := {| start_color := None; end_color := None; fill_type := None |};
     font := {| color := None; bold := false; italic := false |};
     alignment := {| horizontal := None; vertical := None |};
     border := let none := {| border_style := None; side_color := None |} in
               {| border_left := none; border_right := none;
                  border_top := none; border_bottom := none |} |}.

(** A sheet holding a grid of strings from A1 on, without any style. *)
Definition sheet_of_grid (grid : list (list pystr)) : Worksheet :=
  {| ws_cell := fun r c =>
                  plain_cell
                    (match r, c with
                     | S r', S c' => nth_error (nth r' grid []) c'
                     | _, _ => None
                     end);
     last_used_row := List.length grid;
     last_used_column := list_max (map (@List.length _) grid);
     column_width := fun _ => None;
     freeze_panes := None;
     auto_filter_ref := None |}.

(** A header and two speakers over two columns. *)
Definition small_sheet : Worksheet :=
  sheet_of_grid [ [py "Name"; py "About the Speaker"];
                  [py "Ben"; py "N/A"];
                  [py "Anna"; py long_text] ].

(** The first row of [directory_page], where the traversal meets it. *)
Definition anna_row : element :=
  ([py "div"; py "[document]"],
   views_row [ heading_link "/experts/anna" " Anna Bell ";
               Tag (py "ul") [] None [li "Healing"; li " Yoga "] ]).

Definition cards_without_url : list card :=
  [ {| Name := py "Cleo"; First_Tag := py "Yoga"; Last_Tag := py "Yoga";
       Detail_URL := None |};
    {| Name := py "Dan"; First_Tag := []; Last_Tag := [];
       Detail_URL := Some [] |} ].

Definition two_speakers : list speaker :=
  [ {| sp_Name := py "Ben"; sp_First_Tag := []; sp_Last_Tag := [];
       About_the_Speaker := [] |};
    {| sp_Name := py "Anna"; sp_First_Tag := py "Healing";
       sp_Last_Tag := py "Yoga"; About_the_Speaker := py long_text |} ].

Definition new_year : pystr := py "2025-01-01 00:00:00".

(** A content block inside a content block, with one paragraph inside. *)
Definition inner_block : node := field_content [paragraph "Hi."].
Definition outer_block : node :=
  field_content [text caption; inner_block].
Definition nested_page : list node := [ Tag (py "body") [] None [outer_block] ].

End Fixtures.

Section Scraper.

Variable ctx : Browser.

(** [html.parser] behind [BeautifulSoup(html, "html.parser")]: the top-level
    nodes of the document, or the exception the tokenizer raised. *)
Variable html_parser : pystr -> result (list node).

(** [urllib.parse.urljoin]: the joined URL, or the [ValueError] it raises
    on a reference it cannot split (["http://["], for one). *)
Variable urljoin : pystr -> pystr -> result pystr.

Definition BeautifulSoup (html : pystr) : result element :=
  rbind (html_parser html)
        (fun nodes => Ok ([], Tag (py "[document]") [] None nodes)).

(* ----------------------------------------------------------------- *)
(** *** Card parser *)

(** The tags of a row: the first and the last [li] of its first [ul].
    A [Tag] is always true, so the guards [if lis[0]] and [if lis[-1]]
    never take their else branch. *)
Definition row_tags (node : element) : pystr * pystr :=
  match find_ul node with
  | Some ul =>
      let lis := find_all_li ul in
      match lis with
      | [] => ([], [])
      | li0 :: _ => (get_text [] li0, get_text [] (last lis li0))
      end
  | None => ([], [])
  end.

(** [urljoin(BASE, href) if href else None]: no handler is around the
    call, so what [urljoin] raises leaves [parse_main_cards]. *)
Definition detail_url_of (href : option pystr) : result (option pystr) :=
  match href with
  | Some h => if truthy h then rbind (urljoin BASE h) (fun u => Ok (Some u))
              else Ok None
  | None => Ok None
  end.

(** One iteration of the loop of [parse_main_cards]: the dict appended for
    [node], or the exception of [urljoin]. *)
Definition card_of_row (node : element) : result card :=
  let a := select_one_h3_a node in
  let name := match a with Some a => get_text [] a | None => [] end in
  let href := match a with Some a => get_href a | None => None end in
  rbind (detail_url_of href)
        (fun detail_url =>
           let '(first_tag, last_tag) := row_tags node in
           Ok {| Name := strip name;
                 First_Tag := strip first_tag;
                 Last_Tag := strip last_tag;
                 Detail_URL := detail_url |}).

(** The loop over [nodes], with [results.append]: an iteration that raises
    ends the loop, and the call. *)
Fixpoint cards_loop (nodes : list element) (results : list card)
  : result (list card) :=
  match nodes with
  | [] => Ok results
  | node :: rest =>
      rbind (card_of_row node) (fun c => cards_loop rest (results ++ [c]))
  end.

Definition parse_main_cards_soup (soup : element) : result (list card) :=
  cards_loop (select_div_views_row soup) [].

Definition parse_main_cards (html : pystr) : result (list card) :=
  rbind (BeautifulSoup html) parse_main_cards_soup.

(* ----------------------------------------------------------------- *)
(** *** Detail parser *)

(** The inner loop over the paragraphs of a block. *)
Definition paragraphs_loop (ps : list element) (parts : list pystr)
  : list pystr :=
  fold_left (fun parts p =>
               let text := get_text (py " ") p in
               if truthy text then parts ++ [text] else parts)
            ps parts.

(** One iteration of the loop over the blocks. *)
Definition block_step (parts : list pystr) (block : element) : list pystr :=
  let ps := select_p block in
  match ps with
  | _ :: _ => paragraphs_loop ps parts
  | [] =>
      let text := get_text (py " ") block in
      if truthy text && (30 <? List.length text) then parts ++ [text]
      else parts
  end.

Definition parse_about_soup (soup : element) : pystr :=
  let field_blocks := select_div_field_content soup in
  let parts := fold_left block_step field_blocks [] in
  strip (join [10; 10]%N parts).

(** [html] is [None] when there is nothing to parse; [not html] also holds
    for the empty string. *)
Definition parse_about_from_html (html : option pystr) : result pystr :=
  match html with
  | None => Ok []
  | Some h =>
      if truthy h
      then rbind (BeautifulSoup h) (fun soup => Ok (parse_about_soup soup))
      else Ok []
  end.

(* ----------------------------------------------------------------- *)
(** *** Retrying fetcher *)

Definition new_page : M page :=
  fun t => let r := on_new_page ctx t in (t ++ [EvNewPage r], r).

Definition goto (p : page) (url : pystr) (timeout : N) : M unit :=
  fun t => let r := on_goto ctx t p url timeout in
           (t ++ [EvGoto p url timeout r], r).

Definition wait_for_selector (p : page) (selector : pystr) (timeout : N)
  : M unit :=
  fun t => let r := on_wait_for_selector ctx t p selector timeout in
           (t ++ [EvWaitForSelector p selector timeout r], r).

Definition content (p : page) : M pystr :=
  fun t => let r := on_content ctx t p in (t ++ [EvContent p r], r).

Definition close (p : page) : M unit :=
  fun t => let r := on_close ctx t p in (t ++ [EvClose p r], r).

(** [asyncio.sleep], in milliseconds. *)
Definition sleep (ms : N) : M unit :=
  fun t => (t ++ [EvSleep ms], Ok tt).

(** The [try] block of [fetch_detail_html]. *)
Definition fetch_detail_html_try (p : page) (url : pystr) : M pystr :=
  (goto p url PAGE_TIMEOUT_MS ;;;
   wait_for_selector p (py "div.field-content") PAGE_TIMEOUT_MS ;;;
   sleep 200 ;;;
   content p)%co.

(** The [finally] block: [page.close()] with its exceptions passed over. *)
Definition fetch_detail_html_finally (p : page) : M unit :=
  try_except (close p) (fun _ => ret tt).

(** The body of [fetch_detail_html], one attempt. *)
Definition fetch_detail_html_attempt (url : pystr) : M pystr :=
  (p <- new_page ;;
   try_finally (fetch_detail_html_try p url) (fetch_detail_html_finally p))%co.

(** [wait_exponential(multiplier=1, min=1, max=10)] after attempt
    [attempt_number], in milliseconds:
    [max(max(0, min), min(multiplier * 2 ** (attempt_number - 1), max))]. *)
Definition wait_exponential (attempt_number : nat) : N :=
  N.max (N.max 0 1000) (N.min (1000 * 2 ^ N.of_nat (attempt_number - 1)) 10000).

(** [stop_after_attempt(RETRY_ATTEMPTS)] *)
Definition stop_after_attempt (attempt_number : nat) : bool :=
  RETRY_ATTEMPTS <=? attempt_number.

(** tenacity's loop under [retry(stop=..., wait=..., reraise=True)]: call
    [fn]; return its result; on an exception stop and raise it again when
    [stop] says so, else sleep and start the next attempt. *)
Equations? retrying {A : Type} (fn : M A) (attempt_number : nat) (t : trace)
  : trace * result A by wf (RETRY_ATTEMPTS - attempt_number) lt :=
  retrying fn n t with fn t => {
    | (t1, Ok a) => (t1, Ok a)
    | (t1, Raise e) with sumbool_of_bool (stop_after_attempt n) => {
        | left _ => (t1, Raise e)
        | right Hstop =>
            retrying fn (S n) (t1 ++ [EvSleep (wait_exponential n)]) } }.
Proof.
  unfold stop_after_attempt in Hstop.
  apply Nat.leb_gt in Hstop. unfold RETRY_ATTEMPTS in *.
  destruct n as [|[|[|n]]]; lia.
Qed.

(** The decorated [fetch_detail_html]: attempts are numbered from 1. *)
Definition fetch_detail_html (url : pystr) : M pystr :=
  retrying (fetch_detail_html_attempt url) 1.

(* ----------------------------------------------------------------- *)
(** *** The enrichment loop of [main] *)

(** The guarded [try] / [except (RetryError, pwTimeout, Exception)] of one
    iteration: the value [about_text] ends with. *)
Definition about_text_of (detail_url : option pystr) : M pystr :=
  match detail_url with
  | Some url =>
      if truthy url
      then try_except
             (html <- fetch_detail_html url ;;
              lift (parse_about_from_html (Some html)))%co
             (fun _ => ret [])
      else ret []
  | None => ret []
  end.

(** The dict appended for [rec]. *)
Definition speaker_of (rec : card) (about_text : pystr) : speaker :=
  {| sp_Name := strip (Name rec);
     sp_First_Tag := strip (First_Tag rec);
     sp_Last_Tag := strip (Last_Tag rec);
     About_the_Speaker := strip about_text |}.

(** One iteration: [speakers.append({...})]. *)
Definition enrich_step (speakers : list speaker) (rec : card)
  : M (list speaker) :=
  (about_text <- about_text_of (Detail_URL rec) ;;
   ret (speakers ++ [speaker_of rec about_text]))%co.

Fixpoint enrich_loop (records : list card) (speakers : list speaker)
  : M (list speaker) :=
  match records with
  | [] => ret speakers
  | rec :: rest => (speakers' <- enrich_step speakers rec ;;
                    enrich_loop rest speakers')%co
  end.

(* ----------------------------------------------------------------- *)
(** *** [main], from the directory page to the list of speakers *)

(** "Load main page", the [try] and [except pwTimeout] blocks: wait for
    the network to be idle; on a timeout navigate once more, waiting for
    the content only.  The two navigations differ in their [wait_until]
    argument, which the browser tells apart by the trace. *)
Definition load_main_page_try (p : page) : M pystr :=
  try_except_pwTimeout
    (goto p START_URL 30000 ;;; sleep 500 ;;; content p)%co
    (goto p START_URL 30000 ;;; content p)%co.

(** With the [finally] block: the page is closed in any case, and an
    exception of [close] is not caught. *)
Definition load_main_page (p : page) : M pystr :=
  try_finally (load_main_page_try p) (close p).

(** The body of [main] from [context.new_page()] to the end of the loop:
    the list [speakers]. *)
Definition main_speakers : M (list speaker) :=
  (p <- new_page ;;
   main_html <- load_main_page p ;;
   records <- lift (parse_main_cards main_html) ;;
   enrich_loop records [])%co.

(* ----------------------------------------------------------------- *)
(** *** What one record is enriched with *)

(** The biography of a record and the trace after it, by what happened:
    there was no URL to fetch, the fetch failed, the parse failed, or both
    went through. *)
Inductive about_outcome (detail_url : option pystr) (t : trace)
  : pystr -> trace -> Prop :=
| about_no_url :
    detail_url = None \/ detail_url = Some [] ->
    about_outcome detail_url t [] t
| about_fetch_failed (url : pystr) (t1 : trace) (e : exn) :
    detail_url = Some url -> url <> [] ->
    fetch_detail_html url t = (t1, Raise e) ->
    about_outcome detail_url t [] t1
| about_parse_failed (url : pystr) (t1 : trace) (html : pystr) (e : exn) :
    detail_url = Some url -> url <> [] ->
    fetch_detail_html url t = (t1, Ok html) ->
    parse_about_from_html (Some html) = Raise e ->
    about_outcome detail_url t [] t1
| about_parsed (url : pystr) (t1 : trace) (html about : pystr) :
    detail_url = Some url -> url <> [] ->
    fetch_detail_html url t = (t1, Ok html) ->
    parse_about_from_html (Some html) = Ok about ->
    about_outcome detail_url t about t1.

(** A run over the records: one speaker per record, in their order. *)
Inductive enrich_run : trace -> list card -> list speaker -> trace -> Prop :=
| enrich_done (t : trace) : enrich_run t [] [] t
| enrich_next (t : trace) (rec : card) (about : pystr) (t1 : trace)
              (rest : list card) (out : list speaker) (t2 : trace) :
    about_outcome (Detail_URL rec) t about t1 ->
    enrich_run t1 rest out t2 ->
    enrich_run t (rec :: rest) (speaker_of rec about :: out) t2.

Definition speaker_trimmed (s : speaker) : bool :=
  trimmedb (sp_Name s) && trimmedb (sp_First_Tag s)
  && trimmedb (sp_Last_Tag s) && trimmedb (About_the_Speaker s).

Definition card_trimmed (c : card) : bool :=
  trimmedb (Name c) && trimmedb (First_Tag c) && trimmedb (Last_Tag c).

(* ================================================================= *)
(** ** Strings *)

Lemma pystr_eqb_eq (a b : pystr) : pystr_eqb a b = true <-> a = b.
Proof.
  revert b. induction a as [|x a IH]; destruct b as [|y b]; simpl;
    try (split; [discriminate | discriminate]); try tauto.
  rewrite andb_true_iff, N.eqb_eq, IH.
  split; [intros [-> ->]; reflexivity | intros H; inversion H; auto].
Qed.

Lemma lstrip_head (s : pystr) (c : N) (rest : pystr) :
  lstrip s = c :: rest -> isspace c = false.
Proof.
  induction s as [|x s IH]; simpl; [discriminate|].
  destruct (isspace x) eqn:Hx; [exact IH|].
  intros H. inversion H. subst. exact Hx.
Qed.

Lemma lstrip_suffix (s : pystr) : exists p, s = p ++ lstrip s.
Proof.
  induction s as [|x s [p IH]]; simpl.
  - exists []. reflexivity.
  - destruct (isspace x).
    + exists (x :: p). simpl. f_equal. exact IH.
    + exists []. reflexivity.
Qed.

Lemma rstrip_prefix (s : pystr) : exists q, s = rstrip s ++ q.
Proof.
  unfold rstrip. destruct (lstrip_suffix (rev s)) as [p Hp].
  exists (rev p). rewrite <- rev_app_distr, <- Hp, rev_involutive.
  reflexivity.
Qed.

Lemma rstrip_last (s : pystr) (c d : N) (rest : pystr) :
  rstrip s = c :: rest -> isspace (last (rstrip s) d) = false.
Proof.
  unfold rstrip. destruct (lstrip (rev s)) as [|x v] eqn:Hv; simpl.
  - discriminate.
  - intros _. rewrite last_last. exact (lstrip_head _ Hv).
Qed.

Lemma strip_trimmed (s : pystr) : trimmedb (strip s) = true.
Proof.
  unfold strip, trimmedb.
  destruct (rstrip (lstrip s)) as [|c rest] eqn:Hr; [reflexivity|].
  apply andb_true_iff; split; apply negb_true_iff.
  - destruct (rstrip_prefix (lstrip s)) as [q Hq].
    rewrite Hr in Hq. simpl in Hq. exact (lstrip_head _ Hq).
  - rewrite <- Hr. exact (rstrip_last _ c Hr).
Qed.

(* ================================================================= *)
(** ** Lists *)

Lemma Forall2_nth_error {A B} (R : A -> B -> Prop) (l : list A) (l' : list B) :
  Forall2 R l l' ->
  forall i x, nth_error l i = Some x ->
              exists y, nth_error l' i = Some y /\ R x y.
Proof.
  induction 1 as [|a b l l' Hab _ IH]; intros [|i] x Hx; try discriminate.
  - injection Hx as <-. exists b. split; [reflexivity | exact Hab].
  - exact (IH i x Hx).
Qed.

(* ================================================================= *)
(** ** Card parser *)

Lemma card_of_row_ok (row : element) (c : card) :
  card_of_row row = Ok c ->
  Name c = strip (match select_one_h3_a row with
                  | Some a => get_text [] a
                  | None => []
                  end)
  /\ First_Tag c = strip (fst (row_tags row))
  /\ Last_Tag c = strip (snd (row_tags row)).
Proof.
  unfold card_of_row.
  destruct (detail_url_of _) as [u|e]; cbn [rbind]; [|discriminate].
  destruct (row_tags row) as [f l]. intros H. injection H as <-.
  repeat split.
Qed.

Lemma cards_loop_ok (nodes : list element) :
  forall results cards,
    cards_loop nodes results = Ok cards ->
    exists new,
      cards = results ++ new
      /\ Forall2 (fun row c => card_of_row row = Ok c) nodes new.
Proof.
  induction nodes as [|node rest IH]; intros results cards Hloop;
    cbn [cards_loop] in Hloop.
  - injection Hloop as <-. exists []. rewrite app_nil_r.
    split; [reflexivity | constructor].
  - destruct (card_of_row node) as [c|e] eqn:Hc; cbn [rbind] in Hloop;
      [|discriminate].
    destruct (IH _ _ Hloop) as (new & -> & Hnew).
    exists (c :: new). rewrite <- app_assoc.
    split; [reflexivity | constructor; assumption].
Qed.

Lemma cards_loop_complete (nodes : list element) (new : list card) :
  Forall2 (fun row c => card_of_row row = Ok c) nodes new ->
  forall results, cards_loop nodes results = Ok (results ++ new).
Proof.
  induction 1 as [|node c rest new Hc _ IH]; intros results;
    cbn [cards_loop].
  - rewrite app_nil_r. reflexivity.
  - rewrite Hc. cbn [rbind]. rewrite IH, <- app_assoc. reflexivity.
Qed.

Lemma cards_loop_raises (nodes : list element) :
  forall results row e,
    In row nodes -> card_of_row row = Raise e ->
    exists e', cards_loop nodes results = Raise e'.
Proof.
  induction nodes as [|node rest IH]; intros results row e Hin Hrow;
    [contradiction|].
  cbn [cards_loop]. destruct (card_of_row node) as [c|e0] eqn:Hc;
    cbn [rbind].
  - destruct Hin as [->|Hin]; [congruence|]. exact (IH _ row e Hin Hrow).
  - exists e0. reflexivity.
Qed.

Lemma parse_main_cards_soup_rows (soup : element) (cards : list card) :
  parse_main_cards_soup soup = Ok cards
  <-> Forall2 (fun row c => card_of_row row = Ok c)
              (select_div_views_row soup) cards.
Proof.
  unfold parse_main_cards_soup. split.
  - intros H. destruct (cards_loop_ok _ _ H) as (new & -> & Hnew).
    exact Hnew.
  - intros H. exact (cards_loop_complete H []).
Qed.

Lemma parse_main_cards_soup_trimmed (soup : element) (cards : list card) :
  parse_main_cards_soup soup = Ok cards ->
  Forall (fun c => card_trimmed c = true) cards.
Proof.
  intros H. apply parse_main_cards_soup_rows in H.
  induction H as [|row c rows cards Hc _ IH]; constructor; [|exact IH].
  destruct (card_of_row_ok _ Hc) as (Hn & Hf & Hl).
  unfold card_trimmed. rewrite Hn, Hf, Hl, !strip_trimmed. reflexivity.
Qed.

(** C3. On a document the tokenizer delivers, [parse_main_cards] returns,
    when it returns, one card per element that [select("div.views-row")]
    finds, the i-th card built from the i-th such element in document
    order; it returns when [urljoin] accepts the href of every row.  It
    does not return on every page: when [urljoin] raises on the href of a
    single row, the whole call raises and no card is returned. *)
Theorem parse_main_cards_rows_or_raise (html : pystr) (soup : element) :
  BeautifulSoup html = Ok soup ->
  (forall cards,
     parse_main_cards html = Ok cards ->
     List.length cards = List.length (select_div_views_row soup)
     /\ Forall2 (fun row c => card_of_row row = Ok c)
                (select_div_views_row soup) cards)
  /\ (Forall (fun row => exists c, card_of_row row = Ok c)
             (select_div_views_row soup) ->
      exists cards, parse_main_cards html = Ok cards)
  /\ (forall row a h e,
        In row (select_div_views_row soup) ->
        select_one_h3_a row = Some a -> get_href a = Some h -> h <> [] ->
        urljoin BASE h = Raise e ->
        exists e', parse_main_cards html = Raise e').
Proof.
  intros Hsoup. unfold parse_main_cards. rewrite Hsoup. cbn [rbind].
  split; [|split].
  - intros cards Hcards. apply parse_main_cards_soup_rows in Hcards.
    split; [|exact Hcards]. symmetry. exact (Forall2_length Hcards).
  - intros Hall.
    assert (Hnew : exists cards,
               Forall2 (fun row c => card_of_row row = Ok c)
                       (select_div_views_row soup) cards).
    { induction Hall as [|row rows [c Hc] _ [cards IH]].
      - exists []. constructor.
      - exists (c :: cards). constructor; assumption. }
    destruct Hnew as [cards Hcards]. exists cards.
    apply parse_main_cards_soup_rows. exact Hcards.
  - intros row a h e Hin Ha Hh Hne Hjoin.
    apply (cards_loop_raises _ [] row (e := e) Hin).
    unfold card_of_row, detail_url_of. rewrite Ha, Hh.
    destruct h as [|x h]; [contradiction|].
    cbn [truthy]. rewrite Hjoin. reflexivity.
Qed.

(** C6. In a parse that returns, the card of a row has two empty tags
    when the row has no [ul] or no [li] lies below its first [ul], and two
    equal tags when exactly one [li] lies below that [ul], at any
    depth. *)
Theorem row_tags_of_short_lists
  (soup : element) (cards : list card) (i : nat) (row : element) :
  parse_main_cards_soup soup = Ok cards ->
  nth_error (select_div_views_row soup) i = Some row ->
  exists c,
    nth_error cards i = Some c
    /\ (find_ul row = None -> First_Tag c = [] /\ Last_Tag c = [])
    /\ (forall ul, find_ul row = Some ul -> find_all_li ul = [] ->
                   First_Tag c = [] /\ Last_Tag c = [])
    /\ (forall ul item, find_ul row = Some ul -> find_all_li ul = [item] ->
                        First_Tag c = Last_Tag c).
Proof.
  intros Hcards Hrow. apply parse_main_cards_soup_rows in Hcards.
  destruct (Forall2_nth_error Hcards i Hrow) as (c & Hc & Hcard).
  exists c. split; [exact Hc|].
  destruct (card_of_row_ok _ Hcard) as (_ & -> & ->).
  unfold row_tags.
  split; [|split].
  - intros Hnone. rewrite Hnone. split; reflexivity.
  - intros ul Hul Hlis. rewrite Hul, Hlis. split; reflexivity.
  - intros ul item Hul Hlis. rewrite Hul, Hlis. reflexivity.
Qed.

(* ================================================================= *)
(** ** Detail parser *)

Lemma paragraphs_loop_filter (ps : list element) (parts : list pystr) :
  paragraphs_loop ps parts
  = parts ++ filter truthy (map (get_text (py " ")) ps).
Proof.
  unfold paragraphs_loop. revert parts.
  induction ps as [|p ps IH]; intros parts; simpl.
  - rewrite app_nil_r. reflexivity.
  - rewrite IH. destruct (truthy (get_text (py " ") p)); simpl.
    + rewrite <- app_assoc. reflexivity.
    + reflexivity.
Qed.

Lemma block_step_app (parts : list pystr) (block : element) :
  block_step parts block = parts ++ block_step [] block.
Proof.
  unfold block_step. destruct (select_p block) as [|p ps].
  - destruct (truthy _ && _); simpl; [reflexivity|].
    rewrite app_nil_r. reflexivity.
  - rewrite !paragraphs_loop_filter. reflexivity.
Qed.

Lemma blocks_loop_flat_map (blocks : list element) (parts : list pystr) :
  fold_left block_step blocks parts = parts ++ flat_map (block_step []) blocks.
Proof.
  revert parts. induction blocks as [|b bs IH]; intros parts; simpl.
  - rewrite app_nil_r. reflexivity.
  - rewrite IH, (block_step_app parts b), app_assoc. reflexivity.
Qed.

(** C5. A block with paragraphs adds the text of each paragraph whose
    stripped text is not empty, whatever its length; a block without
    paragraphs adds the text [get_text(" ", strip=True)] gives for it
    (every string stripped, the non-empty ones joined by one space, the
    white space inside a string left as it is) when that text is longer
    than 30 characters and nothing otherwise.  The parts of the page are
    the parts of its blocks, one block after the other, and the biography
    of a page that is present is these parts joined and stripped. *)
Theorem block_step_paragraphs_or_long_text
  (parts : list pystr) (block : element) :
  (select_p block <> [] ->
     block_step parts block
     = parts ++ filter truthy (map (get_text (py " ")) (select_p block))
     /\ forall p, In p (select_p block) -> get_text (py " ") p <> [] ->
                  In (get_text (py " ") p) (block_step parts block))
  /\ (select_p block = [] ->
      30 < List.length (get_text (py " ") block) ->
      block_step parts block = parts ++ [get_text (py " ") block])
  /\ (select_p block = [] ->
      List.length (get_text (py " ") block) <= 30 ->
      block_step parts block = parts)
  /\ (forall soup,
        parse_about_soup soup
        = strip (join [10; 10]%N
                   (flat_map (block_step []) (select_div_field_content soup))))
  /\ (forall html soup,
        html <> [] -> BeautifulSoup html = Ok soup ->
        parse_about_from_html (Some html)
        = Ok (strip (join [10; 10]%N
                       (flat_map (block_step [])
                                 (select_div_field_content soup))))).
Proof.
  split; [|split; [|split; [|split]]].
  - intros Hps.
    assert (Heq : block_step parts block
                  = parts ++ filter truthy
                               (map (get_text (py " ")) (select_p block))).
    { unfold block_step. destruct (select_p block) as [|p ps] eqn:E.
      - contradiction.
      - apply paragraphs_loop_filter. }
    split; [exact Heq|].
    intros p Hin Hne. rewrite Heq. apply in_or_app. right.
    apply filter_In. split.
    + apply in_map. exact Hin.
    + destruct (get_text (py " ") p); [contradiction | reflexivity].
  - intros Hps Hlen. unfold block_step. rewrite Hps.
    apply Nat.ltb_lt in Hlen. rewrite Hlen.
    destruct (get_text (py " ") block); [discriminate | reflexivity].
  - intros Hps Hlen. unfold block_step. rewrite Hps.
    apply Nat.ltb_ge in Hlen. rewrite Hlen, andb_false_r. reflexivity.
  - intros soup. unfold parse_about_soup.
    rewrite blocks_loop_flat_map. reflexivity.
  - intros html soup Hne Hsoup. unfold parse_about_from_html.
    destruct html as [|x html]; [contradiction|].
    cbn [truthy]. rewrite Hsoup. cbn [rbind]. unfold parse_about_soup.
    rewrite blocks_loop_flat_map. reflexivity.
Qed.

(** C10. A block that has paragraphs, all of them blank, adds nothing: its
    own text is not looked at, however long it is. *)
Theorem block_step_blank_paragraphs (parts : list pystr) (block : element) :
  select_p block <> [] ->
  Forall (fun p => get_text (py " ") p = []) (select_p block) ->
  block_step parts block = parts.
Proof.
  intros Hps Hblank. unfold block_step.
  destruct (select_p block) as [|p ps] eqn:E; [contradiction|].
  rewrite paragraphs_loop_filter.
  assert (Hnone : filter truthy (map (get_text (py " ")) (p :: ps)) = []).
  { clear E Hps. induction Hblank as [|q qs Hq _ IH]; simpl.
    - reflexivity.
    - rewrite Hq. simpl. exact IH. }
  rewrite Hnone. apply app_nil_r.
Qed.

(** C7. The detail parser returns the empty string for an absent input,
    and does so at every one of any number of calls. *)
Theorem parse_about_from_html_absent (n : nat) :
  parse_about_from_html None = Ok []
  /\ map parse_about_from_html (repeat None n) = repeat (Ok []) n.
Proof.
  split; [reflexivity|].
  induction n as [|n IH]; simpl.
  - reflexivity.
  - rewrite IH. reflexivity.
Qed.

(* ================================================================= *)
(** ** Retrying fetcher *)

Lemma attempts_app (d1 d2 : trace) :
  attempts (d1 ++ d2) = attempts d1 + attempts d2.
Proof. unfold attempts. rewrite filter_app, length_app. reflexivity. Qed.

Lemma opened_app (d1 d2 : trace) : opened (d1 ++ d2) = opened d1 + opened d2.
Proof. unfold opened. rewrite filter_app, length_app. reflexivity. Qed.

Lemma closed_app (d1 d2 : trace) : closed (d1 ++ d2) = closed d1 + closed d2.
Proof. unfold closed. rewrite filter_app, length_app. reflexivity. Qed.

Lemma attempt_events (url : pystr) : one_attempt (fetch_detail_html_attempt url).
Proof.
  intros t.
  unfold fetch_detail_html_attempt, try_finally, fetch_detail_html_try,
    fetch_detail_html_finally, try_except, bind, new_page, goto,
    wait_for_selector, sleep, content, close, ret.
  cbv zeta.
  repeat match goal with
         | |- context [match ?r with Ok _ => _ | Raise _ => _ end] =>
             destruct r
         end; cbn [fst]; repeat rewrite <- app_assoc; cbn [app].
  all: eexists; split; [reflexivity | split; reflexivity].
Qed.

Lemma retrying_step {A} (fn : M A) (n : nat) (t : trace) :
  retrying fn n t
  = match fn t with
    | (t1, Ok a) => (t1, Ok a)
    | (t1, Raise e) =>
        if stop_after_attempt n then (t1, Raise e)
        else retrying fn (S n) (t1 ++ [EvSleep (wait_exponential n)])
    end.
Proof.
  simp retrying. destruct (fn t) as [t1 [a|e]]; simpl.
  - reflexivity.
  - destruct (sumbool_of_bool (stop_after_attempt n)) as [H|H].
    + transitivity (t1, @Raise A e); [reflexivity | rewrite H; reflexivity].
    + transitivity (retrying fn (S n) (t1 ++ [EvSleep (wait_exponential n)]));
        [reflexivity | rewrite H; reflexivity].
Qed.

(** The loop makes at most [RETRY_ATTEMPTS - n + 1] attempts from attempt
    number [n] on, and keeps pages opened and closed in balance. *)
Lemma retrying_events {A} (fn : M A) (Hfn : one_attempt fn) (k : nat) :
  forall n t, RETRY_ATTEMPTS - n = k ->
    exists d, fst (retrying fn n t) = t ++ d
              /\ 1 <= attempts d <= S k /\ opened d = closed d.
Proof.
  induction k as [|k IH]; intros n t Hk; rewrite retrying_step;
    destruct (Hfn t) as (d & Hd & Hatt & Hbal);
    destruct (fn t) as [t1 [a|e]]; simpl in Hd; subst t1.
  - exists d. cbn [fst]. split; [reflexivity | lia].
  - assert (Hstop : stop_after_attempt n = true).
    { unfold stop_after_attempt. apply Nat.leb_le. lia. }
    rewrite Hstop. exists d. cbn [fst]. split; [reflexivity | lia].
  - exists d. cbn [fst]. split; [reflexivity | lia].
  - destruct (stop_after_attempt n) eqn:Hstop.
    + exists d. cbn [fst]. split; [reflexivity | lia].
    + destruct (IH (S n) ((t ++ d) ++ [EvSleep (wait_exponential n)]))
        as (d2 & Hd2 & Hatt2 & Hbal2); [lia|].
      exists (d ++ [EvSleep (wait_exponential n)] ++ d2).
      rewrite Hd2, <- !app_assoc.
      split; [reflexivity|].
      rewrite !attempts_app, !opened_app, !closed_app.
      cbn [attempts opened closed filter is_new_page is_opened is_close
             List.length].
      lia.
Qed.

(** C4. [fetch_detail_html] makes at least one and at most three attempts;
    when the first two attempts raise and the third returns, it returns
    the HTML of the third; when all three raise, it raises the exception of
    the third and returns nothing. *)
Theorem fetch_detail_html_three_attempts (url : pystr) (t : trace) :
  (exists d, fst (fetch_detail_html url t) = t ++ d
             /\ 1 <= attempts d <= 3)
  /\ (forall e1 e2 t1 t2 t3 html,
        fetch_detail_html_attempt url t = (t1, Raise e1) ->
        fetch_detail_html_attempt url (t1 ++ [EvSleep 1000]) = (t2, Raise e2) ->
        fetch_detail_html_attempt url (t2 ++ [EvSleep 2000]) = (t3, Ok html) ->
        fetch_detail_html url t = (t3, Ok html))
  /\ (forall e1 e2 e3 t1 t2 t3,
        fetch_detail_html_attempt url t = (t1, Raise e1) ->
        fetch_detail_html_attempt url (t1 ++ [EvSleep 1000]) = (t2, Raise e2) ->
        fetch_detail_html_attempt url (t2 ++ [EvSleep 2000]) = (t3, Raise e3) ->
        fetch_detail_html url t = (t3, Raise e3)).
Proof.
  split; [|split].
  - destruct (@retrying_events _ _ (attempt_events url) 2 1 t eq_refl)
      as (d & Hd & Hatt & _).
    exists d. split; [exact Hd | exact Hatt].
  - intros e1 e2 t1 t2 t3 html H1 H2 H3. unfold fetch_detail_html.
    rewrite retrying_step, H1. cbn [stop_after_attempt RETRY_ATTEMPTS Nat.leb].
    change (wait_exponential 1) with 1000%N.
    rewrite retrying_step, H2. cbn [stop_after_attempt RETRY_ATTEMPTS Nat.leb].
    change (wait_exponential 2) with 2000%N.
    rewrite retrying_step, H3. reflexivity.
  - intros e1 e2 e3 t1 t2 t3 H1 H2 H3. unfold fetch_detail_html.
    rewrite retrying_step, H1. cbn [stop_after_attempt RETRY_ATTEMPTS Nat.leb].
    change (wait_exponential 1) with 1000%N.
    rewrite retrying_step, H2. cbn [stop_after_attempt RETRY_ATTEMPTS Nat.leb].
    change (wait_exponential 2) with 2000%N.
    rewrite retrying_step, H3. reflexivity.
Qed.

(** C8. An attempt that opened page [p] ends with [p.close()], whatever
    the [try] block did, and returns or raises what the [try] block did,
    whatever [close] did; over all attempts of one fetch as many pages are
    closed as were opened. *)
Theorem fetch_detail_html_closes_page (url : pystr) (t : trace) :
  (forall p, on_new_page ctx t = Ok p ->
     let t0 := t ++ [EvNewPage (Ok p)] in
     let t1 := fst (fetch_detail_html_try p url t0) in
     fetch_detail_html_attempt url t
     = (t1 ++ [EvClose p (on_close ctx t1 p)],
        snd (fetch_detail_html_try p url t0)))
  /\ (exists d, fst (fetch_detail_html url t) = t ++ d
                /\ opened d = closed d).
Proof.
  split.
  - intros p Hp t0 t1. subst t0 t1.
    unfold fetch_detail_html_attempt, bind, new_page. cbv zeta.
    rewrite Hp.
    unfold try_finally, fetch_detail_html_finally, try_except, close, ret.
    destruct (fetch_detail_html_try p url (t ++ [EvNewPage (Ok p)]))
      as [t1 r].
    cbn [fst snd]. destruct (on_close ctx t1 p); reflexivity.
  - destruct (@retrying_events _ _ (attempt_events url) 2 1 t eq_refl)
      as (d & Hd & _ & Hbal).
    exists d. split; [exact Hd | exact Hbal].
Qed.

(* ================================================================= *)
(** ** Enrichment loop *)

Lemma about_text_of_outcome (detail_url : option pystr) (t : trace) :
  exists about t1,
    about_text_of detail_url t = (t1, Ok about)
    /\ about_outcome detail_url t about t1.
Proof.
  unfold about_text_of.
  destruct detail_url as [[|c url]|].
  - exists [], t. split; [reflexivity|]. apply about_no_url. auto.
  - cbn [truthy]. unfold try_except, bind, lift, ret.
    destruct (fetch_detail_html (c :: url) t) as [t1 [html|e]] eqn:Hfetch.
    + destruct (parse_about_from_html (Some html)) as [about|e] eqn:Hparse.
      * exists about, t1. split; [reflexivity|].
        eapply about_parsed; eauto. discriminate.
      * exists [], t1. split; [reflexivity|].
        eapply about_parse_failed; eauto. discriminate.
    + exists [], t1. split; [reflexivity|].
      eapply about_fetch_failed; eauto. discriminate.
  - exists [], t. split; [reflexivity|]. apply about_no_url. auto.
Qed.

Lemma about_outcome_fetch_raised detail_url url t about t1 t' e :
  about_outcome detail_url t about t1 ->
  detail_url = Some url ->
  fetch_detail_html url t = (t', Raise e) ->
  about = [].
Proof.
  intros Hout Hurl Hfetch.
  destruct Hout as [_|u t1 e' Hu _ Hf|u t1 html e' Hu _ Hf _
                   |u t1 html about Hu _ Hf _]; try reflexivity.
  rewrite Hurl in Hu. injection Hu as <-. congruence.
Qed.

Lemma about_outcome_parse_raised detail_url url t about t1 t' html e :
  about_outcome detail_url t about t1 ->
  detail_url = Some url ->
  fetch_detail_html url t = (t', Ok html) ->
  parse_about_from_html (Some html) = Raise e ->
  about = [].
Proof.
  intros Hout Hurl Hfetch Hparse.
  destruct Hout as [_|u t1 e' Hu _ Hf|u t1 h e' Hu _ Hf _
                   |u t1 h about Hu _ Hf Hp]; try reflexivity.
  rewrite Hurl in Hu. injection Hu as <-.
  rewrite Hfetch in Hf. injection Hf as <- <-. congruence.
Qed.

Lemma enrich_run_length t records out t' :
  enrich_run t records out t' -> List.length out = List.length records.
Proof. induction 1; simpl; congruence. Qed.

Lemma enrich_loop_runs
  (records : list card) (speakers : list speaker) (t : trace) :
  exists out t',
    enrich_loop records speakers t = (t', Ok (speakers ++ out))
    /\ enrich_run t records out t'
    /\ List.length out = List.length records.
Proof.
  revert speakers t.
  induction records as [|rec rest IH]; intros speakers t.
  - exists [], t. rewrite app_nil_r.
    split; [reflexivity|]. split; [constructor | reflexivity].
  - destruct (about_text_of_outcome (Detail_URL rec) t)
      as (about & t1 & Habout & Hout).
    destruct (IH (speakers ++ [speaker_of rec about]) t1)
      as (out & t2 & Hloop & Hrun & Hlen).
    exists (speaker_of rec about :: out), t2.
    split; [|split].
    + cbn [enrich_loop]. unfold bind, enrich_step, bind, ret.
      rewrite Habout. fold (enrich_loop rest). rewrite Hloop.
      rewrite <- app_assoc. reflexivity.
    + econstructor; eassumption.
    + simpl. rewrite Hlen. reflexivity.
Qed.

Lemma enrich_run_fields t records out t' :
  enrich_run t records out t' ->
  Forall2 (fun rec s =>
             sp_Name s = strip (Name rec)
             /\ sp_First_Tag s = strip (First_Tag rec)
             /\ sp_Last_Tag s = strip (Last_Tag rec)
             /\ (Detail_URL rec = None -> About_the_Speaker s = []))
          records out.
Proof.
  induction 1 as [|t rec about t1 rest out t2 Hout _ IH]; constructor;
    [|exact IH].
  repeat split; try reflexivity.
  intros Hnone. cbn [speaker_of About_the_Speaker].
  destruct Hout as [_|url ? ? Hurl|url ? ? ? Hurl|url ? ? ? Hurl];
    try reflexivity; congruence.
Qed.

(** C1. From the empty list of speakers, the loop never raises and appends
    one speaker per record, in the order of the records: name and tags are
    those of the record, and the biography is empty for a record without a
    detail URL, for one whose fetch raised and for one whose parse
    raised. *)
Theorem enrich_loop_one_speaker_per_record (records : list card) (t : trace) :
  exists out t',
    enrich_loop records [] t = (t', Ok out)
    /\ List.length out = List.length records
    /\ enrich_run t records out t'
    /\ Forall2 (fun rec s =>
                  sp_Name s = strip (Name rec)
                  /\ sp_First_Tag s = strip (First_Tag rec)
                  /\ sp_Last_Tag s = strip (Last_Tag rec)
                  /\ (Detail_URL rec = None -> About_the_Speaker s = []))
               records out.
Proof.
  destruct (enrich_loop_runs records [] t) as (out & t' & Hloop & Hrun & Hlen).
  exists out, t'. repeat split; try assumption.
  exact (enrich_run_fields Hrun).
Qed.

Lemma speaker_of_trimmed (rec : card) (about : pystr) :
  speaker_trimmed (speaker_of rec about) = true.
Proof.
  unfold speaker_trimmed, speaker_of. cbn [sp_Name sp_First_Tag sp_Last_Tag
                                            About_the_Speaker].
  rewrite !strip_trimmed. reflexivity.
Qed.

Lemma enrich_run_trimmed t records out t' :
  enrich_run t records out t' ->
  Forall (fun s => speaker_trimmed s = true) out.
Proof.
  induction 1; constructor; [apply speaker_of_trimmed | assumption].
Qed.

(** C9. Every speaker the loop appends has its four fields stripped, on
    every path; the cards and the biography they are built from are
    stripped as well. *)
Theorem speakers_are_trimmed (records : list card) (t : trace) :
  match enrich_loop records [] t with
  | (_, Ok out) => Forall (fun s => speaker_trimmed s = true) out
  | (_, Raise _) => False
  end
  /\ (forall soup,
        match parse_main_cards_soup soup with
        | Ok cards => Forall (fun c => card_trimmed c = true) cards
        | Raise _ => True
        end)
  /\ (forall soup, trimmedb (parse_about_soup soup) = true).
Proof.
  split; [|split].
  - destruct (enrich_loop_runs records [] t)
      as (out & t' & Hloop & Hrun & _).
    rewrite Hloop. simpl. exact (enrich_run_trimmed Hrun).
  - intros soup. destruct (parse_main_cards_soup soup) as [cards|e] eqn:E;
      [|exact I].
    exact (parse_main_cards_soup_trimmed _ E).
  - intros soup. apply strip_trimmed.
Qed.

(* ================================================================= *)
(** ** Stripped strings stay as they are *)

Lemma last_app_nonempty {A} (l1 l2 : list A) (d d' : A) :
  l2 <> [] -> last (l1 ++ l2) d = last l2 d'.
Proof.
  intros Hne. destruct l2 as [|x l2]; [contradiction|].
  induction l1 as [|y l1 IH]; simpl.
  - clear Hne. revert x. induction l2 as [|z l2 IH]; intros x; simpl.
    + reflexivity.
    + apply IH.
  - destruct (l1 ++ x :: l2) eqn:E.
    + destruct l1; discriminate.
    + exact IH.
Qed.

Lemma trimmedb_strip (s : pystr) : trimmedb s = true -> strip s = s.
Proof.
  destruct s as [|c r]; [reflexivity|].
  unfold trimmedb. intros H. apply andb_true_iff in H.
  destruct H as [Hc Hl]. apply negb_true_iff in Hc, Hl.
  unfold strip. cbn [lstrip]. rewrite Hc. unfold rstrip.
  assert (Hne : c :: r <> []) by discriminate.
  destruct (exists_last Hne) as (front & z & Hs).
  rewrite Hs in Hl |- *. rewrite last_last in Hl.
  rewrite rev_app_distr. cbn [rev app lstrip]. rewrite Hl.
  cbn [rev]. rewrite rev_involutive. reflexivity.
Qed.

Lemma join_cons2 (sep x y : pystr) (l : list pystr) :
  join sep (x :: y :: l) = x ++ sep ++ join sep (y :: l).
Proof. reflexivity. Qed.

(** Joining non-empty stripped strings gives a non-empty stripped string,
    whatever the separator. *)
Lemma join_trimmed (sep : pystr) (l : list pystr) :
  l <> [] ->
  Forall (fun s => truthy s = true /\ trimmedb s = true) l ->
  truthy (join sep l) = true /\ trimmedb (join sep l) = true.
Proof.
  induction l as [|x l IH]; [contradiction|].
  intros _ Hall. inversion Hall as [|? ? [Hx Ht] Hrest]; subst.
  destruct l as [|y l].
  - cbn [join]. split; assumption.
  - destruct IH as [HJ HJt]; [discriminate | exact Hrest |].
    rewrite join_cons2, app_assoc.
    destruct x as [|c r]; [discriminate|].
    destruct (join sep (y :: l)) as [|c' r'] eqn:EJ; [discriminate|].
    split; [reflexivity|].
    unfold trimmedb in *. cbn [app].
    apply andb_true_iff in Ht, HJt. destruct Ht as [Hc _], HJt as [_ Hl'].
    rewrite Hc. cbn [andb].
    change (c :: (r ++ sep) ++ c' :: r') with ((c :: r ++ sep) ++ c' :: r').
    rewrite (last_app_nonempty (c :: r ++ sep) c c'); [exact Hl' | discriminate].
Qed.

Lemma stripped_strings_trimmed (l : list pystr) :
  Forall (fun s => truthy s = true /\ trimmedb s = true)
         (filter truthy (map strip l)).
Proof.
  apply Forall_forall. intros s Hs. apply filter_In in Hs.
  destruct Hs as [Hin Ht]. split; [exact Ht|].
  apply in_map_iff in Hin. destruct Hin as (x & <- & _). apply strip_trimmed.
Qed.

Lemma get_text_trimmed (sep : pystr) (e : element) :
  trimmedb (get_text sep e) = true.
Proof.
  unfold get_text.
  destruct (filter truthy (map strip (all_strings (snd e)))) as [|x l] eqn:E.
  - reflexivity.
  - apply join_trimmed; [discriminate|].
    rewrite <- E. apply stripped_strings_trimmed.
Qed.

Lemma block_step_parts (block : element) :
  Forall (fun s => truthy s = true /\ trimmedb s = true) (block_step [] block).
Proof.
  unfold block_step. destruct (select_p block) as [|p ps].
  - destruct (truthy (get_text (py " ") block)) eqn:Ht; cbn [andb].
    + destruct (30 <? _); repeat constructor;
        [exact Ht | apply get_text_trimmed].
    + constructor.
  - rewrite paragraphs_loop_filter. cbn [app].
    apply Forall_forall. intros s Hs. apply filter_In in Hs.
    destruct Hs as [Hin Ht]. split; [exact Ht|].
    apply in_map_iff in Hin. destruct Hin as (q & <- & _).
    apply get_text_trimmed.
Qed.

(** X1. The parts of a biography are non-empty stripped strings, so the
    closing [.strip()] changes nothing: the biography is the parts joined
    by blank lines, and it is empty exactly when no block adds a part. *)
Theorem parse_about_soup_is_join (soup : element) :
  let parts := flat_map (block_step []) (select_div_field_content soup) in
  Forall (fun s => truthy s = true /\ trimmedb s = true) parts
  /\ parse_about_soup soup = join [10; 10]%N parts
  /\ (parse_about_soup soup = [] <-> parts = []).
Proof.
  intros parts.
  assert (Hparts : Forall (fun s => truthy s = true /\ trimmedb s = true) parts).
  { subst parts. apply Forall_forall. intros s Hs.
    apply in_flat_map in Hs. destruct Hs as (b & _ & Hb).
    pose proof (block_step_parts b) as Hall.
    rewrite Forall_forall in Hall. exact (Hall s Hb). }
  assert (Hjoin : parse_about_soup soup = join [10; 10]%N parts).
  { unfold parse_about_soup. rewrite blocks_loop_flat_map. cbn [app].
    fold parts. destruct parts as [|x l] eqn:E; [reflexivity|].
    apply trimmedb_strip. apply join_trimmed; [discriminate | exact Hparts]. }
  split; [exact Hparts|]. split; [exact Hjoin|].
  rewrite Hjoin. split.
  - intros Hnil. destruct parts as [|x l] eqn:E; [reflexivity|].
    destruct (join_trimmed [10; 10]%N (l := x :: l)) as [Ht _];
      [discriminate | exact Hparts |].
    rewrite Hnil in Ht. discriminate.
  - intros ->. reflexivity.
Qed.

(** X2. In every card the parser builds, the name is the text of the
    row's first [h3 a] and the tags are the texts of the first and of the
    last [li] of its first [ul], for a list of any length: the [.strip()]
    calls on the three fields change nothing. *)
Theorem card_of_row_fields (row : element) (c : card) :
  card_of_row row = Ok c ->
  Name c
  = match select_one_h3_a row with
    | Some a => get_text [] a
    | None => []
    end
  /\ First_Tag c = fst (row_tags row)
  /\ Last_Tag c = snd (row_tags row)
  /\ (forall ul item items,
        find_ul row = Some ul -> find_all_li ul = item :: items ->
        First_Tag c = get_text [] item
        /\ Last_Tag c = get_text [] (last items item)).
Proof.
  intros Hcard. destruct (card_of_row_ok _ Hcard) as (Hn & Hf & Hl).
  assert (Htags : trimmedb (fst (row_tags row)) = true
                  /\ trimmedb (snd (row_tags row)) = true).
  { unfold row_tags. destruct (find_ul row) as [ul|]; [|split; reflexivity].
    destruct (find_all_li ul) as [|li0 lis]; [split; reflexivity|].
    split; apply get_text_trimmed. }
  destruct Htags as [Htf Htl].
  assert (H1 : First_Tag c = fst (row_tags row)).
  { rewrite Hf. apply trimmedb_strip. exact Htf. }
  assert (H2 : Last_Tag c = snd (row_tags row)).
  { rewrite Hl. apply trimmedb_strip. exact Htl. }
  split; [|split; [exact H1 | split; [exact H2|]]].
  - rewrite Hn. apply trimmedb_strip.
    destruct (select_one_h3_a row); [apply get_text_trimmed | reflexivity].
  - intros ul item items Hul Hlis. rewrite H1, H2.
    unfold row_tags. rewrite Hul, Hlis. cbn [fst snd]. split; [reflexivity|].
    destruct items; reflexivity.
Qed.

(* ================================================================= *)
(** ** More on the retrying fetcher *)

Lemma slept_app (d1 d2 : trace) : slept (d1 ++ d2) = (slept d1 + slept d2)%N.
Proof.
  induction d1 as [|ev d1 IH]; simpl; [reflexivity|].
  destruct ev; rewrite IH; lia.
Qed.

Lemma attempt_sleeps (url : pystr) (t : trace) :
  exists d, fst (fetch_detail_html_attempt url t) = t ++ d
            /\ (slept d <= 200)%N.
Proof.
  unfold fetch_detail_html_attempt, try_finally, fetch_detail_html_try,
    fetch_detail_html_finally, try_except, bind, new_page, goto,
    wait_for_selector, sleep, content, close, ret.
  cbv zeta.
  repeat match goal with
         | |- context [match ?r with Ok _ => _ | Raise _ => _ end] =>
             destruct r
         end; cbn [fst]; repeat rewrite <- app_assoc; cbn [app].
  all: eexists; split; [reflexivity | cbn; lia].
Qed.

(** X3. The pause after a failed attempt is between one and ten seconds:
    it doubles from one second on and is capped at ten, so the lower
    clamp of [wait_exponential] is never the one that decides, and a later
    attempt never waits less. *)
Theorem wait_exponential_bounds (n m : nat) :
  (1000 <= wait_exponential n <= 10000)%N
  /\ wait_exponential n = N.min (1000 * 2 ^ N.of_nat (n - 1)) 10000
  /\ (n <= m -> (wait_exponential n <= wait_exponential m)%N).
Proof.
  unfold wait_exponential.
  assert (Hpos : forall k, (1 <= 2 ^ k)%N).
  { intros k. pose proof (N.pow_nonzero 2 k) as H. lia. }
  pose proof (Hpos (N.of_nat (n - 1))) as Hn.
  pose proof (Hpos (N.of_nat (m - 1))) as Hm.
  split; [|split].
  - lia.
  - lia.
  - intros Hle.
    assert (Hmono : (2 ^ N.of_nat (n - 1) <= 2 ^ N.of_nat (m - 1))%N).
    { apply N.pow_le_mono_r; lia. }
    lia.
Qed.

Lemma retrying_last_attempt {A} (fn : M A) (Hfn : one_attempt fn) (k : nat) :
  forall n t t' r,
    RETRY_ATTEMPTS - n = k ->
    retrying fn n t = (t', r) ->
    exists t0 d,
      fn t0 = (t', r) /\ t' = t ++ d
      /\ (forall e, r = Raise e -> attempts d = S k).
Proof.
  induction k as [|k IH]; intros n t t' r Hk Hrun;
    rewrite retrying_step in Hrun;
    destruct (Hfn t) as (d & Hd & Hatt & _);
    destruct (fn t) as [t1 [a|e]] eqn:Hfn_t; cbn [fst] in Hd; subst t1.
  - injection Hrun as <- <-. exists t, d.
    split; [exact Hfn_t|]. split; [reflexivity | discriminate].
  - assert (Hstop : stop_after_attempt n = true).
    { unfold stop_after_attempt. apply Nat.leb_le. lia. }
    rewrite Hstop in Hrun. injection Hrun as <- <-. exists t, d.
    split; [exact Hfn_t|]. split; [reflexivity | intros; exact Hatt].
  - injection Hrun as <- <-. exists t, d.
    split; [exact Hfn_t|]. split; [reflexivity | discriminate].
  - assert (Hstop : stop_after_attempt n = false).
    { unfold stop_after_attempt. apply Nat.leb_gt. lia. }
    rewrite Hstop in Hrun.
    destruct (IH (S n) _ t' r ltac:(lia) Hrun) as (t0 & d2 & H0 & Ht' & Hraise).
    exists t0, (d ++ [EvSleep (wait_exponential n)] ++ d2).
    split; [exact H0|]. split.
    + rewrite Ht', <- !app_assoc. reflexivity.
    + intros e' He'. rewrite !attempts_app, (Hraise e' He'), Hatt.
      cbn. lia.
Qed.

(** X4. What [fetch_detail_html] returns or raises is what its last
    attempt returned or raised; it raises only after exactly three
    attempts; and when the first attempt returns, that is the only
    attempt. *)
Theorem fetch_detail_html_outcome (url : pystr) (t t' : trace)
        (r : result pystr) :
  fetch_detail_html url t = (t', r) ->
  (exists t0, fetch_detail_html_attempt url t0 = (t', r))
  /\ (forall e, r = Raise e -> exists d, t' = t ++ d /\ attempts d = 3)
  /\ (forall t1 html, fetch_detail_html_attempt url t = (t1, Ok html) ->
                      t' = t1 /\ r = Ok html).
Proof.
  intros Hrun. unfold fetch_detail_html in Hrun.
  destruct (@retrying_last_attempt _ _ (attempt_events url) 2 1 t t' r
              eq_refl Hrun) as (t0 & d & H0 & Ht' & Hraise).
  split; [exists t0; exact H0|]. split.
  - intros e He. exists d. split; [exact Ht' | exact (Hraise e He)].
  - intros t1 html H1. rewrite retrying_step, H1 in Hrun.
    injection Hrun as <- <-. split; reflexivity.
Qed.

Lemma fetch_detail_html_sleeps (url : pystr) (t : trace) :
  exists d, fst (fetch_detail_html url t) = t ++ d /\ (slept d <= 3600)%N.
Proof.
  assert (H3 : forall t, exists d,
             fst (retrying (fetch_detail_html_attempt url) 3 t) = t ++ d
             /\ (slept d <= 200)%N).
  { intros t0. rewrite retrying_step.
    destruct (attempt_sleeps url t0) as (d & Hd & Hs).
    destruct (fetch_detail_html_attempt url t0) as [t1 [a|e]];
      exists d; split; assumption. }
  assert (H2 : forall t, exists d,
             fst (retrying (fetch_detail_html_attempt url) 2 t) = t ++ d
             /\ (slept d <= 2400)%N).
  { intros t0. rewrite retrying_step.
    destruct (attempt_sleeps url t0) as (d & Hd & Hs).
    destruct (fetch_detail_html_attempt url t0) as [t1 [a|e]];
      cbn [fst] in Hd; subst t1.
    - exists d. split; [reflexivity | lia].
    - change (stop_after_attempt 2) with false. cbv iota.
      change (wait_exponential 2) with 2000%N.
      destruct (H3 ((t0 ++ d) ++ [EvSleep 2000])) as (d3 & Hd3 & Hs3).
      exists (d ++ [EvSleep 2000] ++ d3).
      rewrite Hd3, <- !app_assoc. split; [reflexivity|].
      rewrite !slept_app. cbn [slept fold_right]. lia. }
  unfold fetch_detail_html. rewrite retrying_step.
  destruct (attempt_sleeps url t) as (d & Hd & Hs).
  destruct (fetch_detail_html_attempt url t) as [t1 [a|e]];
    cbn [fst] in Hd; subst t1.
  - exists d. split; [reflexivity | lia].
  - change (stop_after_attempt 1) with false. cbv iota.
    change (wait_exponential 1) with 1000%N.
    destruct (H2 ((t ++ d) ++ [EvSleep 1000])) as (d2 & Hd2 & Hs2).
    exists (d ++ [EvSleep 1000] ++ d2).
    rewrite Hd2, <- !app_assoc. split; [reflexivity|].
    rewrite !slept_app. cbn [slept fold_right]. lia.
Qed.

(** X5. One call of [fetch_detail_html] sleeps at most 3.6 seconds in
    all: 200 ms in each of at most three attempts, one second after the
    first failure and two after the second; when the first attempt
    returns, at most the 200 ms of that attempt. *)
Theorem fetch_detail_html_slept (url : pystr) (t : trace) :
  (exists d, fst (fetch_detail_html url t) = t ++ d /\ (slept d <= 3600)%N)
  /\ (forall t1 html,
        fetch_detail_html_attempt url t = (t1, Ok html) ->
        exists d, fst (fetch_detail_html url t) = t ++ d
                  /\ (slept d <= 200)%N).
Proof.
  split; [apply fetch_detail_html_sleeps|].
  intros t1 html H1. destruct (attempt_sleeps url t) as (d & Hd & Hs).
  exists d. unfold fetch_detail_html. rewrite retrying_step.
  rewrite H1 in Hd |- *. split; [exact Hd | exact Hs].
Qed.

(* ================================================================= *)
(** ** More on the enrichment loop *)

Lemma fetch_detail_html_events (url : pystr) (t : trace) :
  exists d, fst (fetch_detail_html url t) = t ++ d
            /\ attempts d <= 3 /\ opened d = closed d
            /\ (slept d <= 3600)%N.
Proof.
  destruct (@retrying_events _ _ (attempt_events url) 2 1 t eq_refl)
    as (d & Hd & Hatt & Hbal).
  destruct (fetch_detail_html_sleeps url t) as (d' & Hd' & Hs).
  unfold fetch_detail_html in *. rewrite Hd in Hd'.
  apply app_inv_head in Hd'. subst d'.
  exists d. repeat split; try assumption. lia.
Qed.

Lemma about_text_of_events (detail_url : option pystr) (t : trace) :
  exists d about,
    about_text_of detail_url t = (t ++ d, Ok about)
    /\ (match detail_url with
        | Some (_ :: _) => attempts d <= 3 /\ (slept d <= 3600)%N
        | _ => d = []
        end)
    /\ opened d = closed d.
Proof.
  unfold about_text_of. destruct detail_url as [[|c url]|].
  - exists [], []. unfold ret. rewrite app_nil_r. repeat split.
  - cbn [truthy]. unfold try_except, bind, lift, ret.
    destruct (fetch_detail_html_events (c :: url) t)
      as (d & Hd & Hatt & Hbal & Hs).
    destruct (fetch_detail_html (c :: url) t) as [t1 [html|e]];
      cbn [fst] in Hd; subst t1.
    + destruct (parse_about_from_html (Some html)) as [about|e];
        eexists d, _; repeat split; assumption.
    + exists d, []. repeat split; assumption.
  - exists [], []. unfold ret. rewrite app_nil_r. repeat split.
Qed.

(** X6. A run of the loop only adds to the trace, makes at most three
    fetch attempts and sleeps at most 3.6 seconds for each record that has
    a detail URL, and closes as many pages as it opens. *)
Theorem enrich_loop_resources
  (records : list card) (speakers : list speaker) (t : trace) :
  exists d,
    fst (enrich_loop records speakers t) = t ++ d
    /\ attempts d <= 3 * List.length (filter has_detail_url records)
    /\ (slept d
        <= 3600 * N.of_nat (List.length (filter has_detail_url records)))%N
    /\ opened d = closed d.
Proof.
  revert speakers t.
  induction records as [|rec rest IH]; intros speakers t.
  - exists []. cbn. rewrite app_nil_r. repeat split; lia.
  - destruct (about_text_of_events (Detail_URL rec) t)
      as (d1 & about & Habout & Hcost & Hbal1).
    destruct (IH (speakers ++ [speaker_of rec about]) (t ++ d1))
      as (d2 & Hd2 & Hatt2 & Hs2 & Hbal2).
    exists (d1 ++ d2).
    cbn [enrich_loop]. unfold bind at 1. unfold enrich_step, bind, ret.
    rewrite Habout. fold (enrich_loop rest). rewrite Hd2, <- app_assoc.
    split; [reflexivity|].
    rewrite attempts_app, slept_app, opened_app, closed_app.
    assert (Hd1 : if has_detail_url rec
                  then attempts d1 <= 3 /\ (slept d1 <= 3600)%N
                  else d1 = []).
    { unfold has_detail_url.
      destruct (Detail_URL rec) as [[|c url]|]; exact Hcost. }
    cbn [filter]. destruct (has_detail_url rec).
    + destruct Hd1 as [Hatt1 Hs1].
      cbn [List.length]. repeat split; lia.
    + subst d1.
      cbn [attempts opened closed slept filter fold_right List.length].
      repeat split; lia.
Qed.

(** X7. Records without a detail URL cause no call on the browser: the
    trace stays as it is and each of them gets the empty biography. *)
Theorem enrich_loop_without_urls
  (records : list card) (speakers : list speaker) (t : trace) :
  Forall (fun rec => has_detail_url rec = false) records ->
  enrich_loop records speakers t
  = (t, Ok (speakers ++ map (fun rec => speaker_of rec []) records)).
Proof.
  intros Hnone. revert speakers.
  induction Hnone as [|rec rest Hrec _ IH]; intros speakers.
  - cbn. unfold ret. rewrite app_nil_r. reflexivity.
  - cbn [enrich_loop map]. unfold bind at 1. unfold enrich_step, bind, ret.
    assert (Habout : about_text_of (Detail_URL rec) t = (t, Ok [])).
    { unfold has_detail_url in Hrec. unfold about_text_of.
      destruct (Detail_URL rec) as [url|]; [|reflexivity].
      rewrite Hrec. reflexivity. }
    rewrite Habout. fold (enrich_loop rest). rewrite IH, <- app_assoc.
    reflexivity.
Qed.


(* ================================================================= *)
(** ** The directory page and the whole run *)

Lemma gotos_app (d1 d2 : trace) : gotos (d1 ++ d2) = gotos d1 + gotos d2.
Proof. unfold gotos. rewrite filter_app, length_app. reflexivity. Qed.

Ltac case_outcomes :=
  repeat match goal with
         | |- context [match ?r with Ok _ => _ | Raise _ => _ end] =>
             destruct r
         | |- context [match ?e with
                       | pwTimeout => _ | RetryError => _ | Exception _ => _
                       end] => destruct e
         end.

Lemma load_main_page_try_events (p : page) (t : trace) :
  exists d,
    fst (load_main_page_try p t) = t ++ d
    /\ attempts d = 0 /\ opened d = 0 /\ closed d = 0
    /\ 1 <= gotos d <= 2 /\ (slept d <= 500)%N.
Proof.
  unfold load_main_page_try, try_except_pwTimeout, bind, goto, sleep,
    content.
  cbv zeta. case_outcomes; cbn [fst];
    repeat rewrite <- app_assoc; cbn [app].
  all: eexists; split; [reflexivity|].
  all: cbn; repeat split; lia.
Qed.

Lemma load_main_page_events (p : page) (t : trace) :
  exists d rc,
    fst (load_main_page p t) = t ++ d ++ [EvClose p rc]
    /\ attempts d = 0 /\ opened d = 0 /\ closed d = 0
    /\ 1 <= gotos d <= 2 /\ (slept d <= 500)%N
    /\ (forall e, rc = Raise e -> snd (load_main_page p t) = Raise e).
Proof.
  destruct (load_main_page_try_events p t) as (d & Hd & Hrest).
  unfold load_main_page, try_finally, close. cbv zeta.
  destruct (load_main_page_try p t) as [t1 r]. cbn [fst] in Hd. subst t1.
  exists d, (on_close ctx (t ++ d) p).
  destruct (on_close ctx (t ++ d) p) as [[]|e'] eqn:Hclose; cbn [fst snd];
    rewrite <- app_assoc; (split; [reflexivity|]).
  - repeat split; try apply Hrest. discriminate.
  - repeat split; try apply Hrest.
    intros e0 He0. injection He0 as <-. reflexivity.
Qed.

(** X12. Loading the directory page navigates once or twice, closes the
    page exactly once, at the end, on every outcome, and raises what
    [close] raised when [close] fails, even if the HTML had been read.  A
    first navigation that fails with anything but a timeout is not
    repeated: the page is closed and the load raises. *)
Theorem load_main_page_outcomes (p : page) (t : trace) :
  (exists d rc,
     fst (load_main_page p t) = t ++ d ++ [EvClose p rc]
     /\ closed d = 0 /\ 1 <= gotos d <= 2
     /\ (forall e, rc = Raise e -> snd (load_main_page p t) = Raise e))
  /\ (forall e,
        on_goto ctx t p START_URL 30000 = Raise e -> e <> pwTimeout ->
        exists rc e',
          load_main_page p t
          = (t ++ [EvGoto p START_URL 30000 (Raise e); EvClose p rc],
             Raise e')).
Proof.
  split.
  - destruct (load_main_page_events p t)
      as (d & rc & Hd & _ & _ & Hc & Hg & _ & Hrc).
    exists d, rc. repeat split; try assumption; lia.
  - intros e He Hne.
    unfold load_main_page, try_finally, load_main_page_try,
      try_except_pwTimeout, bind, goto, close.
    cbv zeta. rewrite He.
    destruct e as [| |msg]; [contradiction| |];
      rewrite <- app_assoc; cbn [app];
      match goal with
      | |- context [on_close ctx ?t1 p] =>
          destruct (on_close ctx t1 p) as [[]|e'] eqn:Hclose
      end; eexists; eexists; reflexivity.
Qed.

Lemma enrich_run_trimmed_cards t records out t' :
  enrich_run t records out t' ->
  Forall (fun c => card_trimmed c = true) records ->
  Forall2 (fun rec s =>
             sp_Name s = Name rec
             /\ sp_First_Tag s = First_Tag rec
             /\ sp_Last_Tag s = Last_Tag rec)
          records out.
Proof.
  induction 1 as [|t rec about t1 rest out t2 _ _ IH]; intros Htrim;
    inversion Htrim as [|? ? Hrec Hrest]; subst; constructor.
  - unfold card_trimmed in Hrec.
    apply andb_true_iff in Hrec. destruct Hrec as [Hrec Hl].
    apply andb_true_iff in Hrec. destruct Hrec as [Hn Hf].
    unfold speaker_of. cbn [sp_Name sp_First_Tag sp_Last_Tag].
    rewrite !trimmedb_strip by assumption. repeat split.
  - exact (IH Hrest).
Qed.

(** X13. When the directory page loads and [parse_main_cards] returns,
    the run returns one speaker per card, that is per row of the page and
    in page order, with the name and the tags of the card.  When
    [parse_main_cards] raises, the tokenizer's exception or the one of
    [urljoin], the run raises it and yields no speaker.  Whenever the run
    raises, it has failed on the directory page: the only page ever
    opened is that one. *)
Theorem main_speakers_outcomes (t : trace) :
  (forall p t1 html records,
     on_new_page ctx t = Ok p ->
     load_main_page p (t ++ [EvNewPage (Ok p)]) = (t1, Ok html) ->
     parse_main_cards html = Ok records ->
     exists out t',
       main_speakers t = (t', Ok out)
       /\ Forall2 (fun rec s =>
                     sp_Name s = Name rec
                     /\ sp_First_Tag s = First_Tag rec
                     /\ sp_Last_Tag s = Last_Tag rec)
                  records out
       /\ (forall soup,
             BeautifulSoup html = Ok soup ->
             Forall2 (fun row rec => card_of_row row = Ok rec)
                     (select_div_views_row soup) records))
  /\ (forall p t1 html e,
        on_new_page ctx t = Ok p ->
        load_main_page p (t ++ [EvNewPage (Ok p)]) = (t1, Ok html) ->
        parse_main_cards html = Raise e ->
        main_speakers t = (t1, Raise e))
  /\ (forall t' e,
        main_speakers t = (t', Raise e) ->
        exists d, t' = t ++ d /\ attempts d = 1 /\ gotos d <= 2).
Proof.
  split; [|split].
  - intros p t1 html records Hp Hload Hparse.
    destruct (enrich_loop_runs records [] t1)
      as (out & t' & Hloop & Hrun & _).
    exists out, t'. split; [|split].
    + unfold main_speakers, bind at 1, new_page. cbv zeta. rewrite Hp.
      unfold bind at 1. rewrite Hload.
      unfold bind at 1, lift. rewrite Hparse. exact Hloop.
    + apply (enrich_run_trimmed_cards Hrun).
      unfold parse_main_cards in Hparse.
      destruct (BeautifulSoup html) as [soup|e0]; [|discriminate].
      exact (parse_main_cards_soup_trimmed _ Hparse).
    + intros soup Hsoup. unfold parse_main_cards in Hparse.
      rewrite Hsoup in Hparse. cbn [rbind] in Hparse.
      apply parse_main_cards_soup_rows. exact Hparse.
  - intros p t1 html e Hp Hload Hparse.
    unfold main_speakers, bind at 1, new_page. cbv zeta. rewrite Hp.
    unfold bind at 1. rewrite Hload.
    unfold bind at 1, lift. rewrite Hparse. reflexivity.
  - intros t' e Hrun.
    unfold main_speakers, bind at 1, new_page in Hrun. cbv zeta in Hrun.
    destruct (on_new_page ctx t) as [p|e0].
    + destruct (load_main_page_events p (t ++ [EvNewPage (Ok p)]))
        as (d & rc & Hd & Hatt & _ & _ & Hg & _).
      unfold bind at 1 in Hrun.
      destruct (load_main_page p (t ++ [EvNewPage (Ok p)]))
        as [t1 [html|e1]]; cbn [fst] in Hd; subst t1.
      * unfold bind at 1, lift in Hrun.
        destruct (parse_main_cards html) as [records|e2].
        -- destruct (enrich_loop_runs records [] ((t ++ [EvNewPage (Ok p)])
                                                    ++ d ++ [EvClose p rc]))
             as (out & t2 & Hloop & _).
           rewrite Hloop in Hrun. discriminate.
        -- injection Hrun as <- <-.
           exists ([EvNewPage (Ok p)] ++ d ++ [EvClose p rc]).
           rewrite <- !app_assoc. split; [reflexivity|].
           rewrite !attempts_app, !gotos_app, Hatt. cbn. lia.
      * injection Hrun as <- <-.
        exists ([EvNewPage (Ok p)] ++ d ++ [EvClose p rc]).
        rewrite <- !app_assoc. split; [reflexivity|].
        rewrite !attempts_app, !gotos_app, Hatt. cbn. lia.
    + injection Hrun as <- <-. exists [EvNewPage (Raise e0)].
      split; [reflexivity|]. cbn. lia.
Qed.

(* ================================================================= *)
(** ** Blocks inside blocks *)

(** Induction on a document, with the hypothesis for every child. *)
Lemma node_nested_ind (P : node -> Prop) :
  (forall s, P (NavigableString s)) ->
  (forall s, P (Comment s)) ->
  (forall name classes href kids,
      Forall P kids -> P (Tag name classes href kids)) ->
  forall n, P n.
Proof.
  intros Hs Hc Ht.
  fix IH 1. intros [s|s|name classes href kids].
  - apply Hs.
  - apply Hc.
  - apply Ht. induction kids as [|k kids IHk]; constructor.
    + apply IH.
    + exact IHk.
Qed.

Lemma walk_trans (n : node) :
  forall anc b c,
    In b (walk anc n) -> In c (walk (fst b) (snd b)) -> In c (walk anc n).
Proof.
  induction n as [s|s|name classes href kids IH] using node_nested_ind;
    intros anc b c Hb Hc; try contradiction.
  cbn [walk] in Hb |- *. destruct Hb as [<-|Hb].
  - exact Hc.
  - right. apply in_flat_map in Hb. destruct Hb as (k & Hk & Hb).
    apply in_flat_map. exists k. split; [exact Hk|].
    rewrite Forall_forall in IH. exact (IH k Hk _ b c Hb Hc).
Qed.

Lemma walk_depth (n : node) :
  forall anc b, In b (walk anc n) -> List.length anc <= List.length (fst b).
Proof.
  induction n as [s|s|name classes href kids IH] using node_nested_ind;
    intros anc b Hb; try contradiction.
  cbn [walk] in Hb. destruct Hb as [<-|Hb]; [reflexivity|].
  apply in_flat_map in Hb. destruct Hb as (k & Hk & Hb).
  rewrite Forall_forall in IH. specialize (IH k Hk _ b Hb).
  cbn [List.length] in IH. lia.
Qed.

Lemma descendants_in_walk (b c : element) :
  In c (descendants b) -> In c (walk (fst b) (snd b)).
Proof.
  unfold descendants. destruct b as [anc [s|s|name classes href kids]];
    cbn [fst snd]; try contradiction.
  intros H. right. exact H.
Qed.

Lemma descendants_trans (a b c : element) :
  In b (descendants a) -> In c (descendants b) -> In c (descendants a).
Proof.
  intros Hb Hc. apply descendants_in_walk in Hc.
  unfold descendants in *. destruct (snd a) as [s|s|name classes href kids];
    try contradiction.
  apply in_flat_map in Hb. destruct Hb as (k & Hk & Hb).
  apply in_flat_map. exists k. split; [exact Hk|].
  exact (walk_trans k _ b c Hb Hc).
Qed.

Lemma descendants_deeper (a b : element) :
  In b (descendants a) -> List.length (fst a) < List.length (fst b).
Proof.
  unfold descendants. destruct (snd a) as [s|s|name classes href kids];
    try contradiction.
  intros Hb. apply in_flat_map in Hb. destruct Hb as (k & Hk & Hb).
  apply walk_depth in Hb. cbn [List.length] in Hb. lia.
Qed.

Lemma count_occ_flat_map_two {A} (f : A -> list pystr) (l : list A)
      (a b : A) (x : pystr) :
  In a l -> In b l -> a <> b -> In x (f a) -> In x (f b) ->
  2 <= count_occ pystr_eq_dec (flat_map f l) x.
Proof.
  intros Ha Hb Hab Hxa Hxb.
  apply (count_occ_In pystr_eq_dec) in Hxa, Hxb.
  destruct (in_split a l Ha) as (l1 & l2 & ->).
  rewrite flat_map_app, count_occ_app. cbn [flat_map].
  rewrite count_occ_app.
  apply in_app_or in Hb. destruct Hb as [Hb|[Hb|Hb]];
    [|contradiction|].
  - destruct (in_split b l1 Hb) as (m1 & m2 & ->).
    rewrite flat_map_app, count_occ_app. cbn [flat_map].
    rewrite count_occ_app. lia.
  - destruct (in_split b l2 Hb) as (m1 & m2 & ->).
    rewrite flat_map_app, count_occ_app. cbn [flat_map].
    rewrite count_occ_app. lia.
Qed.

Lemma paragraph_text_in_block (block p : element) :
  In p (select_p block) -> get_text (py " ") p <> [] ->
  In (get_text (py " ") p) (block_step [] block).
Proof.
  intros Hp Hne. unfold block_step.
  destruct (select_p block) as [|q qs] eqn:E; [contradiction|].
  rewrite paragraphs_loop_filter. cbn [app]. apply filter_In. split.
  - apply in_map. exact Hp.
  - destruct (get_text (py " ") p); [contradiction | reflexivity].
Qed.

(** X17. [select("div.field-content")] also returns the content blocks
    that lie inside another content block, and [select("p")] on the outer
    block finds the paragraphs of the inner one: the text of such a
    paragraph is among the parts of the biography at least twice. *)
Theorem nested_block_paragraph_twice (soup outer inner p : element) :
  In outer (select_div_field_content soup) ->
  In inner (descendants outer) ->
  is_tag (py "div") inner && has_class (py "field-content") inner = true ->
  In p (select_p inner) ->
  get_text (py " ") p <> [] ->
  In inner (select_div_field_content soup)
  /\ In p (select_p outer)
  /\ 2 <= count_occ pystr_eq_dec
            (flat_map (block_step []) (select_div_field_content soup))
            (get_text (py " ") p).
Proof.
  intros Houter Hinner Hclass Hp Hne.
  unfold select_div_field_content in *.
  apply filter_In in Houter. destruct Houter as [Houter Houter_class].
  assert (Hinner_sel :
            In inner (filter (fun e => is_tag (py "div") e
                                       && has_class (py "field-content") e)
                             (descendants soup))).
  { apply filter_In. split; [|exact Hclass].
    exact (descendants_trans soup outer inner Houter Hinner). }
  assert (Hp_outer : In p (select_p outer)).
  { unfold select_p in *. apply filter_In in Hp. destruct Hp as [Hp Htag].
    apply filter_In. split; [|exact Htag].
    exact (descendants_trans outer inner p Hinner Hp). }
  split; [exact Hinner_sel|]. split; [exact Hp_outer|].
  apply count_occ_flat_map_two with (a := outer) (b := inner).
  - apply filter_In. split; assumption.
  - exact Hinner_sel.
  - intros ->. apply descendants_deeper in Hinner. lia.
  - apply paragraph_text_in_block; assumption.
  - apply paragraph_text_in_block; assumption.
Qed.

End Scraper.

(* ================================================================= *)
(** ** Post-processing *)

Lemma cell_eqb_eq (a b : cell) : cell_eqb a b = true <-> a = b.
Proof.
  destruct a as [x|], b as [y|]; simpl; try (split; congruence).
  rewrite pystr_eqb_eq. split; congruence.
Qed.

Lemma row_eqb_eq (a b : row) : row_eqb a b = true <-> a = b.
Proof.
  unfold row_eqb. rewrite !andb_true_iff, !cell_eqb_eq.
  destruct a, b; simpl. split.
  - intros [[[-> ->] ->] ->]. reflexivity.
  - intros H. inversion H. auto.
Qed.

Lemma row_eqb_sym (a b : row) : row_eqb a b = row_eqb b a.
Proof.
  destruct (row_eqb a b) eqn:Hab, (row_eqb b a) eqn:Hba; try reflexivity.
  - apply row_eqb_eq in Hab. subst.
    rewrite (proj2 (row_eqb_eq b b) eq_refl) in Hba. discriminate.
  - apply row_eqb_eq in Hba. subst.
    rewrite (proj2 (row_eqb_eq a a) eq_refl) in Hab. discriminate.
Qed.

Lemma seen_In (r : row) (seen : list row) :
  existsb (row_eqb r) seen = true <-> In r seen.
Proof.
  rewrite existsb_exists. split.
  - intros (x & Hx & Heq). apply row_eqb_eq in Heq. subst. exact Hx.
  - intros H. exists r. split; [exact H | apply row_eqb_eq; reflexivity].
Qed.

Lemma replace_cell_or_NA (s : pystr) : replace_cell (Some s) = Some (or_NA s).
Proof. destruct s; reflexivity. Qed.

Lemma replace_cell_filled (c : cell) :
  exists s, replace_cell c = Some s /\ s <> [].
Proof.
  destruct c as [[|x s]|]; simpl; eexists; split; try reflexivity;
    discriminate.
Qed.

Lemma map_fst_combine_seq {A} (l : list A) (a : nat) :
  map fst (combine (seq a (List.length l)) l) = seq a (List.length l).
Proof.
  revert a. induction l as [|x l IH]; intros a; simpl; [reflexivity|].
  rewrite IH. reflexivity.
Qed.

Lemma map_snd_combine_seq {A} (l : list A) (a : nat) :
  map snd (combine (seq a (List.length l)) l) = l.
Proof.
  revert a. induction l as [|x l IH]; intros a; simpl; [reflexivity|].
  rewrite IH. reflexivity.
Qed.

Lemma seq_increasing (n a : nat) : StronglySorted lt (seq a n).
Proof.
  revert a. induction n as [|n IH]; intros a; simpl; constructor.
  - apply IH.
  - apply Forall_forall. intros x Hx. apply in_seq in Hx. lia.
Qed.

Lemma new_DataFrame_labels (speakers : list speaker) :
  StronglySorted lt (map fst (replace (new_DataFrame speakers))).
Proof.
  unfold replace, new_DataFrame. rewrite map_map. cbn [fst].
  rewrite <- (length_map row_of_speaker speakers), map_fst_combine_seq.
  apply seq_increasing.
Qed.

(** The loop with its set of rows met so far against the declarative
    reading: a row stays when it was not met before the loop started and
    no row with a smaller label equals it. *)
Lemma drop_duplicates_from_filter (df : DataFrame) :
  StronglySorted lt (map fst df) ->
  forall seen,
    drop_duplicates_from seen df
    = filter (fun ir => negb (existsb (row_eqb (snd ir)) seen)
                        && first_occurrence df ir) df.
Proof.
  induction df as [|[i r] rest IH]; intros Hsorted seen; [reflexivity|].
  cbn [map fst] in Hsorted. apply StronglySorted_inv in Hsorted.
  destruct Hsorted as [Hrest Habove].
  rewrite Forall_forall in Habove.
  assert (Hhead : first_occurrence ((i, r) :: rest) (i, r) = true).
  { unfold first_occurrence. cbn [existsb fst snd].
    rewrite Nat.ltb_irrefl. cbn [andb orb].
    apply negb_true_iff. apply not_true_is_false. intros Hex.
    apply existsb_exists in Hex. destruct Hex as (jr & Hin & Hjr).
    apply andb_true_iff in Hjr. destruct Hjr as [Hlt _].
    apply Nat.ltb_lt in Hlt.
    specialize (Habove (fst jr) (in_map fst _ _ Hin)). lia. }
  cbn [drop_duplicates_from filter]. cbn [snd]. rewrite Hhead.
  destruct (existsb (row_eqb r) seen) eqn:Hseen; cbn [negb andb].
  - rewrite (IH Hrest seen). apply filter_ext_in. intros [j r'] Hin.
    unfold first_occurrence. cbn [existsb fst snd].
    assert (Hlt : (i <? j) = true).
    { apply Nat.ltb_lt. apply (Habove j). exact (in_map fst _ _ Hin). }
    rewrite Hlt. cbn [andb].
    destruct (row_eqb r r') eqn:Heq; cbn [orb]; [|reflexivity].
    apply row_eqb_eq in Heq. subst r'. rewrite Hseen. reflexivity.
  - f_equal. rewrite (IH Hrest (r :: seen)). apply filter_ext_in.
    intros [j r'] Hin. unfold first_occurrence. cbn [existsb fst snd].
    assert (Hlt : (i <? j) = true).
    { apply Nat.ltb_lt. apply (Habove j). exact (in_map fst _ _ Hin). }
    rewrite Hlt, (row_eqb_sym r' r). cbn [andb].
    destruct (row_eqb r r'); cbn [orb negb andb];
      [rewrite andb_false_r|]; reflexivity.
Qed.

Lemma drop_duplicates_from_NoDup (df : DataFrame) :
  forall seen,
    NoDup (map snd (drop_duplicates_from seen df))
    /\ (forall r, In r (map snd (drop_duplicates_from seen df))
                  <-> In r (map snd df) /\ ~ In r seen).
Proof.
  induction df as [|[i r] rest IH]; intros seen.
  - split; [constructor|]. simpl. tauto.
  - cbn [drop_duplicates_from].
    destruct (existsb (row_eqb r) seen) eqn:Hseen.
    + apply seen_In in Hseen. destruct (IH seen) as [Hnd Hin].
      split; [exact Hnd|]. intros r'. rewrite Hin. cbn [map snd In].
      split; [tauto|]. intros [[<-|H] Hn]; [contradiction | tauto].
    + assert (Hnot : ~ In r seen).
      { intros H. apply seen_In in H. congruence. }
      destruct (IH (r :: seen)) as [Hnd Hin].
      split.
      * cbn [map snd]. constructor; [|exact Hnd].
        intros H. apply Hin in H. destruct H as [_ H]. apply H. left.
        reflexivity.
      * intros r'. cbn [map snd In]. rewrite Hin. cbn [In].
        destruct (row_eqb r r') eqn:Heq.
        -- apply row_eqb_eq in Heq. subst r'. tauto.
        -- assert (r <> r').
           { intros ->. rewrite (proj2 (row_eqb_eq r' r') eq_refl) in Heq.
             discriminate. }
           tauto.
Qed.

(** C2. [replace] turns every empty and every missing cell into "N/A" and
    leaves no empty cell; [drop_duplicates] then runs on the replaced
    frame and keeps exactly the rows that no earlier row equals in all
    four columns, in their order; the rows handed on are these. *)
Theorem clean_replaces_then_drops_duplicates (speakers : list speaker) :
  let df := replace (new_DataFrame speakers) in
  (replace_cell None = Some NA /\ replace_cell (Some []) = Some NA)
  /\ map snd df
     = map (fun s => {| c_Name := Some (or_NA (sp_Name s));
                        c_First_Tag := Some (or_NA (sp_First_Tag s));
                        c_Last_Tag := Some (or_NA (sp_Last_Tag s));
                        c_About_the_Speaker :=
                          Some (or_NA (About_the_Speaker s)) |}) speakers
  /\ Forall (fun r => Forall (fun c => exists s, c = Some s /\ s <> [])
                             (cells r)) (map snd df)
  /\ drop_duplicates df = filter (first_occurrence df) df
  /\ map snd (clean speakers) = map snd (filter (first_occurrence df) df)
  /\ NoDup (map snd (clean speakers))
  /\ (forall r, In r (map snd (clean speakers)) <-> In r (map snd df)).
Proof.
  intros df.
  assert (Hrows : map snd df
                  = map (fun s => replace_row (row_of_speaker s)) speakers).
  { subst df. unfold replace, new_DataFrame. rewrite map_map. cbn [snd].
    rewrite <- (map_map snd replace_row).
    rewrite <- (length_map row_of_speaker speakers), map_snd_combine_seq.
    apply map_map. }
  assert (Hdrop : drop_duplicates df = filter (first_occurrence df) df).
  { unfold drop_duplicates.
    rewrite (drop_duplicates_from_filter df (new_DataFrame_labels speakers) []).
    reflexivity. }
  assert (Hclean : map snd (clean speakers) = map snd (drop_duplicates df)).
  { unfold clean, reset_index. fold df.
    rewrite <- (length_map snd (drop_duplicates df)).
    apply map_snd_combine_seq. }
  split; [split; reflexivity|].
  split.
  { rewrite Hrows. apply map_ext. intros s.
    unfold replace_row, row_of_speaker.
    cbn [c_Name c_First_Tag c_Last_Tag c_About_the_Speaker].
    rewrite !replace_cell_or_NA. reflexivity. }
  split.
  { rewrite Hrows. apply Forall_forall. intros r Hr.
    apply in_map_iff in Hr. destruct Hr as (s & <- & _).
    unfold cells, replace_row.
    cbn [c_Name c_First_Tag c_Last_Tag c_About_the_Speaker].
    repeat constructor; apply replace_cell_filled. }
  split; [exact Hdrop|].
  split; [rewrite Hclean, Hdrop; reflexivity|].
  rewrite Hclean. unfold drop_duplicates.
  destruct (drop_duplicates_from_NoDup df []) as [Hnd Hin].
  split; [exact Hnd|].
  intros r. rewrite Hin. cbn [In]. tauto.
Qed.

(* ================================================================= *)
(** ** More on the post-processing *)

Lemma drop_duplicates_from_length (df : DataFrame) (seen : list row) :
  List.length (drop_duplicates_from seen df) <= List.length df.
Proof.
  revert seen. induction df as [|[i r] rest IH]; intros seen; simpl.
  - lia.
  - destruct (existsb (row_eqb r) seen); simpl.
    + specialize (IH seen). lia.
    + specialize (IH (r :: seen)). lia.
Qed.

(** A frame without duplicates, none of them met before, is kept whole. *)
Lemma drop_duplicates_from_distinct (df : DataFrame) :
  forall seen,
    NoDup (map snd df) ->
    (forall r, In r (map snd df) -> ~ In r seen) ->
    drop_duplicates_from seen df = df.
Proof.
  induction df as [|[i r] rest IH]; intros seen Hnd Hnew; [reflexivity|].
  cbn [map snd] in Hnd, Hnew. inversion Hnd as [|? ? Hnotin Hnd']; subst.
  cbn [drop_duplicates_from].
  destruct (existsb (row_eqb r) seen) eqn:Hseen.
  - apply seen_In in Hseen. exfalso. apply (Hnew r); [left; reflexivity|].
    exact Hseen.
  - f_equal. apply IH; [exact Hnd'|].
    intros r' Hin [<-|Hs]; [contradiction|].
    apply (Hnew r'); [right; exact Hin | exact Hs].
Qed.

Lemma replace_cell_idempotent (c : cell) :
  replace_cell (replace_cell c) = replace_cell c.
Proof. destruct c as [[|x s]|]; reflexivity. Qed.

Lemma clean_rows (speakers : list speaker) :
  map snd (replace (new_DataFrame speakers))
  = map (fun s => replace_row (row_of_speaker s)) speakers.
Proof.
  unfold replace, new_DataFrame. rewrite map_map. cbn [snd].
  rewrite <- (map_map snd replace_row).
  rewrite <- (length_map row_of_speaker speakers), map_snd_combine_seq.
  apply map_map.
Qed.

(** X9. The cleaned frame has at most as many rows as there are speakers,
    is empty only when there is no speaker, is labelled 0, 1, 2, ... and
    starts with the row of the first speaker. *)
Theorem clean_size_and_labels (speakers : list speaker) :
  List.length (clean speakers) <= List.length speakers
  /\ (clean speakers = [] <-> speakers = [])
  /\ map fst (clean speakers) = seq 0 (List.length (clean speakers))
  /\ hd_error (map snd (clean speakers))
     = hd_error (map (fun s => replace_row (row_of_speaker s)) speakers).
Proof.
  assert (Hlen : List.length (clean speakers)
                 = List.length (drop_duplicates
                                  (replace (new_DataFrame speakers)))).
  { unfold clean, reset_index.
    rewrite <- (length_map snd (drop_duplicates _)) at 1.
    rewrite length_combine, length_seq, !length_map. apply Nat.min_id. }
  assert (Hhd : hd_error (map snd (clean speakers))
                = hd_error (map (fun s => replace_row (row_of_speaker s))
                                speakers)).
  { unfold clean, reset_index.
    rewrite <- (length_map snd (drop_duplicates _)), map_snd_combine_seq.
    rewrite <- clean_rows.
    destruct (replace (new_DataFrame speakers)) as [|[i r] rest];
      reflexivity. }
  split; [|split; [|split]].
  - rewrite Hlen. unfold drop_duplicates.
    etransitivity; [apply drop_duplicates_from_length|].
    unfold replace, new_DataFrame.
    rewrite length_map, length_combine, length_seq, length_map.
    rewrite Nat.min_id. apply Nat.le_refl.
  - split.
    + intros Hnil. rewrite Hnil in Hhd. destruct speakers; [reflexivity|].
      discriminate.
    + intros ->. reflexivity.
  - unfold clean, reset_index at 1.
    rewrite <- (length_map snd (drop_duplicates _)), map_fst_combine_seq.
    rewrite length_map. f_equal. symmetry. exact Hlen.
  - exact Hhd.
Qed.

(** X10. Cleaning twice is cleaning once: [replace] changes nothing in a
    frame it has replaced, and [drop_duplicates] drops nothing from a
    frame it has gone through, whatever the frame. *)
Theorem replace_drop_duplicates_idempotent (df : DataFrame) :
  replace (replace df) = replace df
  /\ drop_duplicates (drop_duplicates df) = drop_duplicates df.
Proof.
  split.
  - unfold replace. rewrite map_map. apply map_ext. intros [i r].
    cbn [fst snd]. unfold replace_row.
    cbn [c_Name c_First_Tag c_Last_Tag c_About_the_Speaker].
    rewrite !replace_cell_idempotent. reflexivity.
  - unfold drop_duplicates.
    destruct (drop_duplicates_from_NoDup df []) as [Hnd _].
    apply drop_duplicates_from_distinct; [exact Hnd|].
    intros r _ [].
Qed.

(** X11. When no two speakers agree on all four columns after the
    replacement, no row is dropped. *)
Theorem clean_keeps_distinct_rows (speakers : list speaker) :
  NoDup (map (fun s => replace_row (row_of_speaker s)) speakers) ->
  map snd (clean speakers)
  = map (fun s => replace_row (row_of_speaker s)) speakers
  /\ List.length (clean speakers) = List.length speakers.
Proof.
  intros Hnd.
  assert (Hrows : map snd (clean speakers)
                  = map (fun s => replace_row (row_of_speaker s)) speakers).
  { unfold clean, reset_index.
    rewrite <- (length_map snd (drop_duplicates _)), map_snd_combine_seq.
    unfold drop_duplicates. rewrite drop_duplicates_from_distinct.
    - apply clean_rows.
    - rewrite clean_rows. exact Hnd.
    - intros r _ []. }
  split; [exact Hrows|].
  rewrite <- (length_map snd (clean speakers)), Hrows. apply length_map.
Qed.

(* ================================================================= *)
(** ** Styling the sheet *)

Lemma same_frame_refl (ws : Worksheet) : same_frame ws ws.
Proof. repeat split. Qed.

Lemma same_frame_trans (a b c : Worksheet) :
  same_frame a b -> same_frame b c -> same_frame a c.
Proof.
  unfold same_frame. intros (H1 & H2 & H3 & H4 & H5) (K1 & K2 & K3 & K4 & K5).
  repeat split; congruence.
Qed.

Lemma same_frame_max (ws ws' : Worksheet) :
  same_frame ws ws' -> max_row ws' = max_row ws /\ max_column ws' = max_column ws.
Proof.
  unfold same_frame, max_row, max_column. intros (H1 & H2 & _).
  rewrite H1, H2. split; reflexivity.
Qed.

Lemma existsb_seq (x a n : nat) :
  existsb (Nat.eqb x) (seq a n) = (a <=? x) && (x <? a + n).
Proof.
  destruct (existsb (Nat.eqb x) (seq a n)) eqn:E.
  - apply existsb_exists in E. destruct E as (y & Hy & Hxy).
    apply Nat.eqb_eq in Hxy. subst y. apply in_seq in Hy.
    symmetry. apply andb_true_iff. split;
      [apply Nat.leb_le | apply Nat.ltb_lt]; lia.
  - symmetry. apply not_true_is_false. intros H.
    apply andb_true_iff in H. destruct H as [H1 H2].
    apply Nat.leb_le in H1. apply Nat.ltb_lt in H2.
    assert (Hin : existsb (Nat.eqb x) (seq a n) = true).
    { apply existsb_exists. exists x. split;
        [apply in_seq; lia | apply Nat.eqb_refl]. }
    congruence.
Qed.

Lemma update_row_frame (cols : list nat) (f : Cell -> Cell) (r : nat) :
  forall ws, same_frame ws (update_row ws r cols f).
Proof.
  unfold update_row.
  induction cols as [|c cols IH]; intros ws; [apply same_frame_refl|].
  cbn [fold_left].
  apply same_frame_trans with (b := update_cell ws r c f); [|apply IH].
  repeat split.
Qed.

Lemma update_row_cell (cols : list nat) (f : Cell -> Cell) (r : nat) :
  NoDup cols ->
  forall ws r' c',
    ws_cell (update_row ws r cols f) r' c'
    = if (r' =? r) && existsb (Nat.eqb c') cols
      then f (ws_cell ws r' c') else ws_cell ws r' c'.
Proof.
  unfold update_row.
  induction 1 as [|c cols Hnotin _ IH]; intros ws r' c'; cbn [fold_left existsb].
  - rewrite andb_false_r. reflexivity.
  - rewrite IH. cbn [update_cell ws_cell].
    destruct (r' =? r) eqn:Er; cbn [andb]; [|reflexivity].
    destruct (c' =? c) eqn:Ec; cbn [orb].
    + apply Nat.eqb_eq in Ec. subst c'.
      assert (Hno : existsb (Nat.eqb c) cols = false).
      { apply not_true_is_false. intros H. apply existsb_exists in H.
        destruct H as (y & Hy & Hcy). apply Nat.eqb_eq in Hcy. subst y.
        contradiction. }
      rewrite Hno. reflexivity.
    + reflexivity.
Qed.

Lemma style_data_row_cell (cols : list nat) (ws : Worksheet) (idx : nat) :
  NoDup cols ->
  forall r c,
    ws_cell (style_data_row cols ws idx) r c
    = if (r =? idx) && existsb (Nat.eqb c) cols
      then data_style idx (ws_cell ws r c) else ws_cell ws r c.
Proof.
  intros Hnd r c. unfold style_data_row, data_style.
  rewrite (update_row_cell _ _ Hnd).
  destruct ((r =? idx) && existsb (Nat.eqb c) cols) eqn:E.
  - apply andb_true_iff in E. destruct E as [Er Ec].
    apply Nat.eqb_eq in Er. subst r.
    destruct (idx mod 2 =? 0).
    + rewrite (update_row_cell _ _ Hnd), Nat.eqb_refl, Ec. reflexivity.
    + reflexivity.
  - destruct (idx mod 2 =? 0); [|reflexivity].
    rewrite (update_row_cell _ _ Hnd), E. reflexivity.
Qed.

Lemma style_data_row_frame (cols : list nat) (ws : Worksheet) (idx : nat) :
  same_frame ws (style_data_row cols ws idx).
Proof.
  unfold style_data_row. destruct (idx mod 2 =? 0).
  - eapply same_frame_trans; apply update_row_frame.
  - apply update_row_frame.
Qed.

Lemma style_data_rows_from (cols rows : list nat) :
  NoDup cols -> NoDup rows ->
  forall ws,
    same_frame ws (fold_left (style_data_row cols) rows ws)
    /\ forall r c,
         ws_cell (fold_left (style_data_row cols) rows ws) r c
         = if existsb (Nat.eqb r) rows && existsb (Nat.eqb c) cols
           then data_style r (ws_cell ws r c) else ws_cell ws r c.
Proof.
  intros Hcols. induction 1 as [|idx rows Hnotin _ IH]; intros ws.
  - split; [apply same_frame_refl | reflexivity].
  - cbn [fold_left existsb].
    destruct (IH (style_data_row cols ws idx)) as [Hframe Hcell].
    split.
    + eapply same_frame_trans; [apply style_data_row_frame | exact Hframe].
    + intros r c. rewrite Hcell, (style_data_row_cell _ _ Hcols).
      destruct (r =? idx) eqn:Er; cbn [orb andb]; [|reflexivity].
      apply Nat.eqb_eq in Er. subst r.
      assert (Hno : existsb (Nat.eqb idx) rows = false).
      { apply not_true_is_false. intros H. apply existsb_exists in H.
        destruct H as (y & Hy & Hcy). apply Nat.eqb_eq in Hcy. subst y.
        contradiction. }
      rewrite Hno. cbn [andb]. reflexivity.
Qed.

Lemma autofit_from (cols : list nat) :
  NoDup cols ->
  forall ws,
    let ws' := fold_left (fun w c => set_column_width w c (fitted_width w c))
                         cols ws in
    ws_cell ws' = ws_cell ws
    /\ last_used_row ws' = last_used_row ws
    /\ last_used_column ws' = last_used_column ws
    /\ freeze_panes ws' = freeze_panes ws
    /\ auto_filter_ref ws' = auto_filter_ref ws
    /\ forall c, column_width ws' c
                 = if existsb (Nat.eqb c) cols then Some (fitted_width ws c)
                   else column_width ws c.
Proof.
  induction 1 as [|c0 cols Hnotin _ IH]; intros ws; cbn [fold_left].
  - repeat split.
  - destruct (IH (set_column_width ws c0 (fitted_width ws c0)))
      as (Hc & Hr & Hcol & Hf & Ha & Hw).
    cbv zeta. repeat split; try assumption.
    intros c. rewrite Hw. cbn [existsb set_column_width column_width].
    destruct (c =? c0) eqn:Ec; cbn [orb].
    + apply Nat.eqb_eq in Ec. subst c.
      assert (Hno : existsb (Nat.eqb c0) cols = false).
      { apply not_true_is_false. intros H. apply existsb_exists in H.
        destruct H as (y & Hy & Hcy). apply Nat.eqb_eq in Hcy. subst y.
        contradiction. }
      rewrite Hno. reflexivity.
    + destruct (existsb (Nat.eqb c) cols); reflexivity.
Qed.

Lemma seq_in_range (x n : nat) :
  existsb (Nat.eqb x) (seq 1 n) = (1 <=? x) && (x <=? n).
Proof.
  rewrite existsb_seq. reflexivity.
Qed.

Lemma data_rows_in_range (x n : nat) :
  existsb (Nat.eqb x) (seq 2 (n - 1)) = (2 <=? x) && (x <=? n).
Proof.
  rewrite existsb_seq.
  destruct (2 <=? x) eqn:E2; cbn [andb]; [|reflexivity].
  apply Nat.leb_le in E2.
  destruct (x <=? n) eqn:E.
  - apply Nat.leb_le in E. apply Nat.ltb_lt. lia.
  - apply Nat.leb_gt in E. apply Nat.ltb_ge. lia.
Qed.

(** The sheet after the two styling loops. *)
Lemma styled_cells (ws : Worksheet) :
  same_frame ws (style_data_rows (style_header ws))
  /\ forall r c,
       ws_cell (style_data_rows (style_header ws)) r c
       = if (1 <=? c) && (c <=? max_column ws)
         then if r =? 1 then header_style (ws_cell ws r c)
              else if (2 <=? r) && (r <=? max_row ws)
                   then data_style r (ws_cell ws r c)
                   else ws_cell ws r c
         else ws_cell ws r c.
Proof.
  assert (Hh : same_frame ws (style_header ws)) by apply update_row_frame.
  destruct (same_frame_max Hh) as [HR HC].
  unfold style_data_rows. rewrite HR, HC.
  destruct (@style_data_rows_from (seq 1 (max_column ws))
              (seq 2 (max_row ws - 1)) (seq_NoDup _ _) (seq_NoDup _ _)
              (style_header ws)) as [Hframe Hcell].
  split; [eapply same_frame_trans; eassumption|].
  intros r c. rewrite Hcell, data_rows_in_range, seq_in_range.
  unfold style_header. rewrite (update_row_cell _ _ (seq_NoDup _ _)).
  rewrite seq_in_range. fold (header_style).
  destruct ((1 <=? c) && (c <=? max_column ws)); rewrite ?andb_false_r;
    [|reflexivity].
  rewrite !andb_true_r.
  destruct (r =? 1) eqn:E1.
  - apply Nat.eqb_eq in E1. subst r. reflexivity.
  - reflexivity.
Qed.

Lemma styled_values (ws : Worksheet) (r c : nat) :
  cell_value (ws_cell (style_data_rows (style_header ws)) r c)
  = cell_value (ws_cell ws r c).
Proof.
  destruct (styled_cells ws) as [_ Hcell]. rewrite Hcell.
  unfold header_style, data_style.
  repeat match goal with
         | |- context [if ?b then _ else _] => destruct b
         end; reflexivity.
Qed.

Lemma fitted_width_styled (ws : Worksheet) (c : nat) :
  fitted_width (style_data_rows (style_header ws)) c = fitted_width ws c.
Proof.
  unfold fitted_width.
  destruct (styled_cells ws) as [Hframe _].
  destruct (same_frame_max Hframe) as [HR _]. rewrite HR.
  f_equal. f_equal. f_equal. apply map_ext. intros r.
  unfold shown_length. rewrite styled_values. reflexivity.
Qed.

(** The sheet before the notes are written. *)
Lemma table_sheet (ws : Worksheet) :
  let table := freeze_and_filter
                 (autofit_columns (style_data_rows (style_header ws))) in
  ws_cell table = ws_cell (style_data_rows (style_header ws))
  /\ last_used_row table = last_used_row ws
  /\ last_used_column table = last_used_column ws
  /\ (forall c, column_width table c
                = if (1 <=? c) && (c <=? max_column ws)
                  then Some (fitted_width ws c) else column_width ws c)
  /\ freeze_panes table = Some (py "A2")
  /\ auto_filter_ref table = Some (1, 1, max_row ws, max_column ws).
Proof.
  destruct (styled_cells ws) as [Hframe _].
  destruct (same_frame_max Hframe) as [HR HC].
  destruct Hframe as (Hr & Hc & Hw & _).
  destruct (@autofit_from (seq 1 (max_column ws)) (seq_NoDup _ _)
              (style_data_rows (style_header ws)))
    as (Acell & Ar & Ac & _ & _ & Aw).
  cbv zeta in *. unfold autofit_columns. rewrite HC.
  cbn [freeze_and_filter ws_cell last_used_row last_used_column column_width
         freeze_panes auto_filter_ref].
  repeat split.
  - exact Acell.
  - congruence.
  - congruence.
  - intros c. rewrite Aw, seq_in_range, fitted_width_styled, Hw. reflexivity.
  - f_equal. f_equal; [f_equal|].
    + unfold max_row. rewrite Ar, Hr. reflexivity.
    + unfold max_column at 1. rewrite Ac, Hc. reflexivity.
Qed.

Lemma list_max_bound (l : list nat) (x : nat) : In x l -> x <= list_max l.
Proof.
  intros Hin. pose proof (proj1 (list_max_le l (list_max l)) (Nat.le_refl _)) as H.
  rewrite Forall_forall in H. exact (H x Hin).
Qed.

Lemma list_max_attained (l : list nat) : l <> [] -> In (list_max l) l.
Proof.
  induction l as [|x l IH]; [contradiction|]. intros _.
  cbn [list_max fold_right]. fold (list_max l).
  destruct l as [|y l].
  - left. cbn. lia.
  - destruct (Nat.max_spec x (list_max (y :: l))) as [[_ ->]|[_ ->]].
    + right. apply IH. discriminate.
    + left. reflexivity.
Qed.

(** X14. Styling leaves every value of the sheet as it is; it writes the
    source note and the time stamp, in grey, into column A two and three
    rows below the last row of the table, freezes the header row and sets
    the filter over the table, from A1 to its last row and column: the
    notes lie outside the filter, a blank row away. *)
Theorem style_excel_layout (timestamp : pystr) (ws : Worksheet) :
  let ws' := style_excel timestamp ws in
  let last_row := max_row ws + 2 in
  (forall r c, (r, c) <> (last_row, 1) -> (r, c) <> (last_row + 1, 1) ->
               cell_value (ws_cell ws' r c) = cell_value (ws_cell ws r c))
  /\ cell_value (ws_cell ws' last_row 1) = Some SOURCE_NOTE
  /\ cell_value (ws_cell ws' (last_row + 1) 1)
     = Some (py "Generated on: " ++ timestamp)
  /\ font (ws_cell ws' last_row 1) = grey_font
  /\ font (ws_cell ws' (last_row + 1) 1) = grey_font
  /\ max_row ws' = max_row ws + 3
  /\ freeze_panes ws' = Some (py "A2")
  /\ auto_filter_ref ws' = Some (1, 1, max_row ws, max_column ws).
Proof.
  intros ws' last_row.
  destruct (table_sheet ws) as (Tcell & Tr & Tc & _ & Tf & Ta).
  cbv zeta in *.
  set (table := freeze_and_filter
                  (autofit_columns (style_data_rows (style_header ws)))) in *.
  assert (HR : max_row table = max_row ws).
  { unfold max_row. rewrite Tr. reflexivity. }
  subst ws'. unfold style_excel. fold table. unfold write_notes. rewrite HR.
  fold last_row.
  cbn [update_cell write_cell ws_cell last_used_row last_used_column
         freeze_panes auto_filter_ref].
  assert (Hne1 : (last_row =? last_row + 1) = false)
    by (apply Nat.eqb_neq; lia).
  assert (Hne2 : (last_row + 1 =? last_row) = false)
    by (apply Nat.eqb_neq; lia).
  split; [|split; [|split; [|split; [|split; [|split; [|split]]]]]].
  - intros r c Hn1 Hn2.
    assert (E1 : (r =? last_row) && (c =? 1) = false).
    { apply not_true_is_false. intros H. apply andb_true_iff in H.
      destruct H as [Hr Hc]. apply Nat.eqb_eq in Hr, Hc. subst. auto. }
    assert (E2 : (r =? last_row + 1) && (c =? 1) = false).
    { apply not_true_is_false. intros H. apply andb_true_iff in H.
      destruct H as [Hr Hc]. apply Nat.eqb_eq in Hr, Hc. subst. auto. }
    rewrite E1, E2, Tcell. apply styled_values.
  - rewrite ?Nat.eqb_refl, ?Hne1, ?Hne2. reflexivity.
  - rewrite ?Nat.eqb_refl, ?Hne1, ?Hne2. reflexivity.
  - rewrite ?Nat.eqb_refl, ?Hne1, ?Hne2. reflexivity.
  - rewrite ?Nat.eqb_refl, ?Hne1, ?Hne2. reflexivity.
  - unfold max_row at 1.
    cbn [update_cell write_cell last_used_row]. rewrite Tr.
    subst last_row. unfold max_row. lia.
  - exact Tf.
  - exact Ta.
Qed.

(** X15. After styling, a cell of the header row has the header fill,
    the header font and the centred alignment, and keeps its border; a
    cell of a data row has the medium border on all sides, the grey
    italic font exactly when its value strips to "N/A", the alternate fill
    when its row number is even, and keeps what the rule does not name;
    cells outside the table and the notes stay as they were. *)
Theorem style_excel_styles (timestamp : pystr) (ws : Worksheet) (r c : nat) :
  let ws' := style_excel timestamp ws in
  let old := ws_cell ws r c in
  (1 <= c <= max_column ws ->
     (r = 1 ->
        fill (ws_cell ws' r c) = header_fill
        /\ font (ws_cell ws' r c) = header_font
        /\ alignment (ws_cell ws' r c) = center
        /\ border (ws_cell ws' r c) = border old)
     /\ (2 <= r <= max_row ws ->
           border (ws_cell ws' r c) = medium_border
           /\ font (ws_cell ws' r c)
              = (if is_NA old then grey_font else font old)
           /\ fill (ws_cell ws' r c)
              = (if Nat.even r then alt_fill else fill old)
           /\ alignment (ws_cell ws' r c) = alignment old))
  /\ ((c = 0 \/ max_column ws < c \/ r = 0 \/ max_row ws < r) ->
      (r, c) <> (max_row ws + 2, 1) -> (r, c) <> (max_row ws + 3, 1) ->
      ws_cell ws' r c = old).
Proof.
  intros ws' old.
  destruct (table_sheet ws) as (Tcell & Tr & _).
  destruct (styled_cells ws) as [_ Scell].
  cbv zeta in *.
  set (table := freeze_and_filter
                  (autofit_columns (style_data_rows (style_header ws)))) in *.
  assert (HR : max_row table = max_row ws).
  { unfold max_row. rewrite Tr. reflexivity. }
  assert (Hcell : forall r c,
             (r =? max_row ws + 2) && (c =? 1) = false ->
             (r =? max_row ws + 2 + 1) && (c =? 1) = false ->
             ws_cell ws' r c = ws_cell (style_data_rows (style_header ws)) r c).
  { intros r0 c0 E1 E2. subst ws'. unfold style_excel. fold table.
    unfold write_notes. rewrite HR.
    cbn [update_cell write_cell ws_cell]. rewrite E1, E2, Tcell.
    reflexivity. }
  assert (Hin : forall r, r <= max_row ws ->
             (r =? max_row ws + 2) && (c =? 1) = false
             /\ (r =? max_row ws + 2 + 1) && (c =? 1) = false).
  { intros r0 Hr0. split; apply andb_false_iff; left; apply Nat.eqb_neq; lia. }
  split.
  - intros Hc.
    assert (Ec : (1 <=? c) && (c <=? max_column ws) = true).
    { apply andb_true_iff. split; apply Nat.leb_le; lia. }
    split.
    + intros ->. assert (H1 : 1 <= max_row ws) by (unfold max_row; lia).
      destruct (Hin 1 H1) as [E1 E2]. rewrite (Hcell 1 c E1 E2), Scell, Ec.
      cbn [Nat.eqb]. subst old. repeat split.
    + intros Hr. destruct (Hin r (proj2 Hr)) as [E1 E2].
      rewrite (Hcell r c E1 E2), Scell, Ec.
      assert (Er1 : (r =? 1) = false) by (apply Nat.eqb_neq; lia).
      assert (Er : (2 <=? r) && (r <=? max_row ws) = true).
      { apply andb_true_iff. split; apply Nat.leb_le; lia. }
      rewrite Er1, Er. fold old. unfold data_style.
      assert (Heven : (r mod 2 =? 0) = Nat.even r).
      { destruct (Nat.even r) eqn:Ev.
        - apply Nat.eqb_eq. apply Nat.even_spec in Ev.
          destruct Ev as [k ->]. rewrite Nat.mul_comm. apply Nat.Div0.mod_mul.
        - apply Nat.eqb_neq. intros Hm.
          assert (Nat.even r = true); [|congruence].
          apply Nat.even_spec. exists (r / 2).
          pose proof (Nat.div_mod_eq r 2). lia. }
      rewrite Heven.
      assert (Hna : forall f x, is_NA (set_fill f x) = is_NA x)
        by reflexivity.
      destruct (Nat.even r); rewrite ?Hna; destruct (is_NA old);
        repeat split.
  - intros Hout Hn1 Hn2.
    assert (E1 : (r =? max_row ws + 2) && (c =? 1) = false).
    { apply not_true_is_false. intros H. apply andb_true_iff in H.
      destruct H as [Hr Hc]. apply Nat.eqb_eq in Hr, Hc. subst. auto. }
    assert (E2 : (r =? max_row ws + 2 + 1) && (c =? 1) = false).
    { apply not_true_is_false. intros H. apply andb_true_iff in H.
      destruct H as [Hr Hc]. apply Nat.eqb_eq in Hr, Hc. subst.
      apply Hn2. f_equal. lia. }
    rewrite (Hcell r c E1 E2), Scell. fold old.
    destruct ((1 <=? c) && (c <=? max_column ws)) eqn:Ec; [|reflexivity].
    apply andb_true_iff in Ec. destruct Ec as [Ec1 Ec2].
    apply Nat.leb_le in Ec1, Ec2.
    destruct Hout as [H|[H|[H|H]]]; try lia.
    + subst r. reflexivity.
    + assert (Er1 : (r =? 1) = false).
      { apply Nat.eqb_neq. unfold max_row in H. lia. }
      assert (Er : (2 <=? r) && (r <=? max_row ws) = false).
      { apply andb_false_iff. right. apply Nat.leb_gt. lia. }
      rewrite Er1, Er. reflexivity.
Qed.

(** X16. Every column of the table gets a width between 2 and 60: the
    length of the longest value among its cells, header included, plus 2,
    cut at 60; the note written into column A afterwards does not count,
    and the widths of the other columns stay as they were. *)
Theorem style_excel_widths (timestamp : pystr) (ws : Worksheet) (c : nat) :
  let ws' := style_excel timestamp ws in
  (1 <= c <= max_column ws ->
     exists w,
       column_width ws' c = Some w
       /\ 2 <= w <= 60
       /\ (forall r, 1 <= r <= max_row ws ->
                     Nat.min (shown_length (ws_cell ws r c) + 2) 60 <= w)
       /\ (exists r, 1 <= r <= max_row ws
                     /\ w = Nat.min (shown_length (ws_cell ws r c) + 2) 60))
  /\ ((c = 0 \/ max_column ws < c) -> column_width ws' c = column_width ws c).
Proof.
  intros ws'.
  destruct (table_sheet ws) as (_ & _ & _ & Tw & _).
  cbv zeta in Tw.
  assert (Hw : column_width ws' c
               = if (1 <=? c) && (c <=? max_column ws)
                 then Some (fitted_width ws c) else column_width ws c).
  { subst ws'. unfold style_excel, write_notes.
    cbn [update_cell write_cell column_width]. apply Tw. }
  split.
  - intros Hc. exists (fitted_width ws c). rewrite Hw.
    assert (Ec : (1 <=? c) && (c <=? max_column ws) = true).
    { apply andb_true_iff. split; apply Nat.leb_le; lia. }
    rewrite Ec. split; [reflexivity|]. unfold fitted_width.
    set (lens := map (fun r => shown_length (ws_cell ws r c))
                     (seq 1 (max_row ws))).
    split; [lia|]. split.
    + intros r Hr.
      assert (Hin : In (shown_length (ws_cell ws r c)) lens).
      { subst lens. apply in_map_iff. exists r. split; [reflexivity|].
        apply in_seq. lia. }
      apply list_max_bound in Hin. lia.
    + assert (Hne : lens <> []).
      { subst lens. unfold max_row.
        destruct (Nat.max 1 (last_used_row ws)) eqn:E; [lia | discriminate]. }
      apply list_max_attained in Hne. subst lens.
      apply in_map_iff in Hne. destruct Hne as (r & Hr & Hin).
      apply in_seq in Hin. exists r. split; [lia|]. rewrite Hr. reflexivity.
  - intros Hout. rewrite Hw.
    assert (Ec : (1 <=? c) && (c <=? max_column ws) = false).
    { apply andb_false_iff. destruct Hout as [->|H];
        [left; reflexivity | right; apply Nat.leb_gt; lia]. }
    rewrite Ec. reflexivity.
Qed.

(* ================================================================= *)
(** ** The theorems on the fixtures *)

Import Fixtures.

Example bad_href_page_raises :
  parse_main_cards (parser_of bad_href_page) strict_join []
  = Raise (Exception (py "Invalid IPv6 URL")).
Proof. reflexivity. Qed.

Example nested_item_row_tags :
  option_map (fun c => (First_Tag c, Last_Tag c))
             (match card_of_row join_path nested_item_row with
              | Ok c => Some c
              | Raise _ => None
              end)
  = Some (py "OneSub", py "Sub").
Proof. reflexivity. Qed.

Example spaced_block_lengths :
  List.length (spec_collapsed_text spaced_block) = 8
  /\ List.length (get_text (py " ") spaced_block) = 47.
Proof. split; reflexivity. Qed.

Example directory_page_cards :
  parse_main_cards (parser_of directory_page) join_path []
  = Ok [ {| Name := py "Anna Bell"; First_Tag := py "Healing";
            Last_Tag := py "Yoga";
            Detail_URL := Some (BASE ++ py "/experts/anna") |};
         {| Name := []; First_Tag := []; Last_Tag := [];
            Detail_URL := None |};
         {| Name := py "Cleo"; First_Tag := []; Last_Tag := [];
            Detail_URL := Some (BASE ++ py "/experts/cleo") |};
         {| Name := py "Dan"; First_Tag := py "Reiki"; Last_Tag := py "Reiki";
            Detail_URL := Some (BASE ++ py "/experts/dan") |} ].
Proof. reflexivity. Qed.

Example detail_page_about :
  parse_about_from_html (parser_of detail_page) (Some (py "<html>"))
  = Ok (py "Hi." ++ [10; 10]%N ++ py long_text ++ [10; 10]%N ++ py long_text).
Proof. reflexivity. Qed.

Example strip_inner_space : strip (py "  a b  ") = py "a b".
Proof. reflexivity. Qed.

(** The run of section 8 of the specification: three rows, the first
    without a link, the second timing out on every attempt, the third
    fetched; then the post-processing. *)
Example three_rows_end_to_end :
  exists t,
    enrich_loop mixed_browser (parser_of one_block_page) three_cards [] []
    = (t, Ok [ {| sp_Name := py "Cleo"; sp_First_Tag := py "Yoga";
                  sp_Last_Tag := py "Yoga"; About_the_Speaker := [] |};
               {| sp_Name := py "Ben"; sp_First_Tag := [];
                  sp_Last_Tag := []; About_the_Speaker := [] |};
               {| sp_Name := py "Anna"; sp_First_Tag := py "Healing";
                  sp_Last_Tag := py "Yoga";
                  About_the_Speaker := py long_text |} ])
    /\ attempts t = 4
    /\ map snd (clean [ {| sp_Name := py "Ben"; sp_First_Tag := [];
                           sp_Last_Tag := []; About_the_Speaker := [] |};
                        {| sp_Name := py "Ben"; sp_First_Tag := py "N/A";
                           sp_Last_Tag := []; About_the_Speaker := [] |} ])
       = [ {| c_Name := Some (py "Ben"); c_First_Tag := Some NA;
              c_Last_Tag := Some NA; c_About_the_Speaker := Some NA |} ].
Proof. eexists. split; [reflexivity | split; reflexivity]. Qed.

Lemma parse_main_cards_rows_or_raise_witness :
  (exists cards,
     parse_main_cards (parser_of directory_page) join_path [] = Ok cards
     /\ List.length cards = 4)
  /\ exists e,
       parse_main_cards (parser_of bad_href_page) strict_join [] = Raise e.
Proof.
  split.
  - destruct (proj1 (proj2 (parse_main_cards_rows_or_raise
                              (parser_of directory_page) join_path []
                              (soup := soup_of directory_page) eq_refl)))
      as [cards Hcards].
    + repeat constructor; eexists; reflexivity.
    + exists cards. split; [exact Hcards|].
      exact (proj1 (proj1 (parse_main_cards_rows_or_raise
                             (parser_of directory_page) join_path []
                             (soup := soup_of directory_page) eq_refl)
                          cards Hcards)).
  - eapply (proj2 (proj2 (parse_main_cards_rows_or_raise
                            (parser_of bad_href_page) strict_join []
                            (soup := soup_of bad_href_page) eq_refl))).
    + right. left. reflexivity.
    + reflexivity.
    + reflexivity.
    + discriminate.
    + reflexivity.
Defined.

Lemma row_tags_of_short_lists_witness :
  exists cards,
    parse_main_cards_soup join_path (soup_of directory_page) = Ok cards
    /\ (exists c, nth_error cards 1 = Some c
                  /\ First_Tag c = [] /\ Last_Tag c = [])
    /\ (exists c, nth_error cards 2 = Some c
                  /\ First_Tag c = [] /\ Last_Tag c = [])
    /\ (exists c, nth_error cards 3 = Some c
                  /\ First_Tag c = Last_Tag c).
Proof.
  destruct (parse_main_cards_soup join_path (soup_of directory_page))
    as [cards|e] eqn:E; [|vm_compute in E; discriminate E].
  exists cards. split; [reflexivity|]. split; [|split].
  - edestruct (@row_tags_of_short_lists join_path (soup_of directory_page)
                 cards 1
                 (nth 1 (select_div_views_row (soup_of directory_page))
                      anna_row) E)
      as (c & Hc & Hnone & _); [reflexivity|].
    exists c. split; [exact Hc|]. apply Hnone. reflexivity.
  - edestruct (@row_tags_of_short_lists join_path (soup_of directory_page)
                 cards 2
                 (nth 2 (select_div_views_row (soup_of directory_page))
                      anna_row) E)
      as (c & Hc & _ & Hempty & _); [reflexivity|].
    exists c. split; [exact Hc|]. eapply Hempty; reflexivity.
  - edestruct (@row_tags_of_short_lists join_path (soup_of directory_page)
                 cards 3
                 (nth 3 (select_div_views_row (soup_of directory_page))
                      anna_row) E)
      as (c & Hc & _ & _ & Hone); [reflexivity|].
    exists c. split; [exact Hc|]. eapply Hone; reflexivity.
Defined.

(** The reading of C6 by the items of the list fails: the one item of
    [nested_item_row] holds a list, and the two tags differ. *)
Lemma one_item_with_a_nested_list :
  ~ (forall (row ul : element) (item : node) (c : card),
        find_ul row = Some ul ->
        spec_list_items ul = [item] ->
        card_of_row join_path row = Ok c ->
        First_Tag c = Last_Tag c).
Proof.
  intros H.
  pose proof (H nested_item_row _ _ _ eq_refl eq_refl eq_refl) as Heq.
  vm_compute in Heq. discriminate Heq.
Qed.

(** The reading of C5 by the collapsed text fails: [spaced_block] has no
    paragraph and a collapsed text of 8 characters, and adds a part. *)
Lemma short_collapsed_text_is_kept :
  ~ (forall block : element,
        select_p block = [] ->
        List.length (spec_collapsed_text block) <= 30 ->
        block_step [] block = []).
Proof.
  intros H.
  assert (Hlen : List.length (spec_collapsed_text spaced_block) <= 30)
    by (vm_compute; lia).
  pose proof (H spaced_block eq_refl Hlen) as Hnil.
  vm_compute in Hnil. discriminate Hnil.
Qed.

Lemma block_step_paragraphs_or_long_text_witness :
  block_step [] (at_body block_with_paragraphs) = [py "Hi."; py long_text]
  /\ block_step [] (at_body block_long) = [py long_text]
  /\ block_step [py "x"] (at_body block_caption) = [py "x"]
  /\ block_step [] spaced_block
     = [py "About                                        me"]
  /\ parse_about_from_html (parser_of detail_page) (Some (py "<html>"))
     = Ok (py "Hi." ++ [10; 10]%N ++ py long_text
           ++ [10; 10]%N ++ py long_text).
Proof.
  split; [|split; [|split; [|split]]].
  - destruct (proj1 (block_step_paragraphs_or_long_text
                       (parser_of detail_page)
                       [] (at_body block_with_paragraphs))) as [H _].
    + intros H. vm_compute in H. discriminate H.
    + exact H.
  - apply (proj1 (proj2 (block_step_paragraphs_or_long_text
                           (parser_of detail_page)
                           [] (at_body block_long)))).
    + reflexivity.
    + vm_compute. lia.
  - apply (proj1 (proj2 (proj2 (block_step_paragraphs_or_long_text
                                  (parser_of detail_page)
                                  [py "x"] (at_body block_caption))))).
    + reflexivity.
    + vm_compute. lia.
  - apply (proj1 (proj2 (block_step_paragraphs_or_long_text
                           (parser_of detail_page) [] spaced_block))).
    + reflexivity.
    + vm_compute. lia.
  - apply (proj2 (proj2 (proj2 (proj2 (block_step_paragraphs_or_long_text
                                         (parser_of detail_page)
                                         [] spaced_block))))
             (py "<html>") (soup_of detail_page)).
    + discriminate.
    + reflexivity.
Defined.

Lemma block_step_blank_paragraphs_witness :
  30 < List.length (get_text (py " ") (at_body block_blank_paragraph))
  /\ block_step [] (at_body block_blank_paragraph) = [].
Proof.
  split; [vm_compute; lia|].
  apply block_step_blank_paragraphs.
  - intros H. vm_compute in H. discriminate H.
  - vm_compute. repeat constructor.
Defined.

Lemma fetch_detail_html_three_attempts_witness :
  (exists t3,
     fetch_detail_html flaky_browser url_anna []
     = (t3, Ok (py "<div class='field-content'/>"))
     /\ attempts t3 = 3)
  /\ (exists t3,
        fetch_detail_html dead_browser url_anna [] = (t3, Raise pwTimeout)
        /\ attempts t3 = 3).
Proof.
  split; eexists.
  - split.
    + eapply (proj1 (proj2 (fetch_detail_html_three_attempts
                              flaky_browser url_anna []))); reflexivity.
    + reflexivity.
  - split.
    + eapply (proj2 (proj2 (fetch_detail_html_three_attempts
                              dead_browser url_anna []))); reflexivity.
    + reflexivity.
Defined.

Lemma fetch_detail_html_closes_page_witness :
  fetch_detail_html_attempt dead_browser url_anna []
  = ([ EvNewPage (Ok 0);
       EvGoto 0 url_anna 5000 (Ok tt);
       EvWaitForSelector 0 (py "div.field-content") 5000 (Raise pwTimeout);
       EvClose 0 (Raise (Exception (py "Target closed"))) ],
     Raise pwTimeout).
Proof.
  exact (proj1 (fetch_detail_html_closes_page dead_browser url_anna [])
               0 eq_refl).
Defined.

Lemma card_of_row_fields_witness :
  exists c,
    card_of_row join_path anna_row = Ok c
    /\ Name c = py "Anna Bell"
    /\ First_Tag c = py "Healing"
    /\ Last_Tag c = py "Yoga".
Proof.
  destruct (card_of_row join_path anna_row) as [c|e] eqn:E;
    [|vm_compute in E; discriminate E].
  exists c. split; [reflexivity|].
  destruct (card_of_row_fields join_path anna_row E)
    as (Hname & _ & _ & Htags).
  edestruct Htags as [Hfirst Hlast]; [reflexivity | reflexivity |].
  split; [exact Hname | split; [exact Hfirst | exact Hlast]].
Defined.

Lemma wait_exponential_bounds_witness :
  (wait_exponential 1 <= wait_exponential 2)%N.
Proof.
  apply (proj2 (proj2 (wait_exponential_bounds 1 2))). lia.
Defined.

Lemma fetch_detail_html_outcome_witness :
  exists d,
    fst (fetch_detail_html dead_browser url_anna []) = [] ++ d
    /\ attempts d = 3.
Proof.
  destruct (fetch_detail_html_outcome dead_browser url_anna []
              (t' := fst (fetch_detail_html dead_browser url_anna []))
              (r := Raise pwTimeout))
    as (_ & Hraise & _); [vm_compute; reflexivity|].
  destruct (Hraise pwTimeout eq_refl) as (d & Hd & Hatt).
  exists d. split; [exact Hd | exact Hatt].
Defined.

Lemma enrich_loop_without_urls_witness :
  enrich_loop dead_browser (parser_of detail_page) cards_without_url [] []
  = ([], Ok [ {| sp_Name := py "Cleo"; sp_First_Tag := py "Yoga";
                 sp_Last_Tag := py "Yoga"; About_the_Speaker := [] |};
              {| sp_Name := py "Dan"; sp_First_Tag := [];
                 sp_Last_Tag := []; About_the_Speaker := [] |} ]).
Proof.
  apply (enrich_loop_without_urls dead_browser (parser_of detail_page)
           (records := cards_without_url) [] []).
  repeat constructor.
Defined.

Lemma clean_keeps_distinct_rows_witness :
  map snd (clean two_speakers)
  = map (fun s => replace_row (row_of_speaker s)) two_speakers
  /\ List.length (clean two_speakers) = List.length two_speakers.
Proof.
  apply clean_keeps_distinct_rows. vm_compute.
  constructor; [intros [H|[]]; discriminate H|].
  constructor; [intros []|constructor].
Defined.

Lemma load_main_page_outcomes_witness :
  exists rc e',
    load_main_page offline_browser 0 []
    = ([] ++ [ EvGoto 0 START_URL 30000
                 (Raise (Exception (py "net::ERR_NAME_NOT_RESOLVED")));
               EvClose 0 rc ],
       Raise e').
Proof.
  apply (proj2 (load_main_page_outcomes offline_browser 0 []));
    [reflexivity | discriminate].
Defined.

Lemma main_speakers_outcomes_witness :
  (exists out t',
     main_speakers slow_start_browser (parser_of directory_page) join_path []
     = (t', Ok out)
     /\ List.length out = 4)
  /\ (exists t',
        main_speakers slow_start_browser (parser_of bad_href_page)
                      strict_join []
        = (t', Raise (Exception (py "Invalid IPv6 URL")))).
Proof.
  split.
  - edestruct (proj1 (main_speakers_outcomes slow_start_browser
                        (parser_of directory_page) join_path []))
      as (out & t' & Hrun & Hfields & _);
      [reflexivity | reflexivity | reflexivity |].
    exists out, t'. split; [exact Hrun|].
    symmetry. exact (Forall2_length Hfields).
  - eexists.
    eapply (proj1 (proj2 (main_speakers_outcomes slow_start_browser
                            (parser_of bad_href_page) strict_join [])));
      reflexivity.
Defined.

Lemma style_excel_layout_witness :
  cell_value (ws_cell (style_excel new_year small_sheet) 2 2)
  = Some (py "N/A").
Proof.
  apply (proj1 (style_excel_layout new_year small_sheet) 2 2);
    intros H; vm_compute in H; congruence.
Defined.

Lemma style_excel_styles_witness :
  border (ws_cell (style_excel new_year small_sheet) 2 2) = medium_border
  /\ font (ws_cell (style_excel new_year small_sheet) 2 2) = grey_font
  /\ fill (ws_cell (style_excel new_year small_sheet) 2 2) = alt_fill.
Proof.
  destruct (proj1 (style_excel_styles new_year small_sheet 2 2))
    as [_ Hdata]; [vm_compute; lia|].
  destruct Hdata as (Hb & Hf & Hfill & _); [vm_compute; lia|].
  split; [exact Hb | split; [exact Hf | exact Hfill]].
Defined.

Lemma style_excel_widths_witness :
  exists w,
    column_width (style_excel new_year small_sheet) 2 = Some w
    /\ 2 <= w <= 60.
Proof.
  destruct (proj1 (style_excel_widths new_year small_sheet 2))
    as (w & Hw & Hbounds & _); [vm_compute; lia|].
  exists w. split; [exact Hw | exact Hbounds].
Defined.

Lemma nested_block_paragraph_twice_witness :
  2 <= count_occ pystr_eq_dec
         (flat_map (block_step [])
                   (select_div_field_content (soup_of nested_page)))
         (py "Hi.").
Proof.
  refine (proj2 (proj2 (@nested_block_paragraph_twice
           (soup_of nested_page)
           ([py "body"; py "[document]"], outer_block)
           ([py "div"; py "body"; py "[document]"], inner_block)
           ([py "div"; py "div"; py "body"; py "[document]"],
            paragraph "Hi.") _ _ _ _ _))).
  - vm_compute. left. reflexivity.
  - vm_compute. left. reflexivity.
  - reflexivity.
  - vm_compute. left. reflexivity.
  - intros H. vm_compute in H. discriminate H.
Defined.

Lemma fetch_detail_html_slept_witness :
  exists d,
    fst (fetch_detail_html mixed_browser url_anna []) = [] ++ d
    /\ (slept d <= 200)%N.
Proof.
  eapply (proj2 (fetch_detail_html_slept mixed_browser url_anna [])).
  reflexivity.
Defined.
